(** * The Starknet chat agent ([langchain-agent/agent_langchain.ts])

    A shallow embedding of the tool handlers, the background-action
    timers and the dialogue graph of [agent_langchain.ts], and the
    properties its specification states about them.

    JavaScript values are modelled as the source has them: strings as
    (ASCII) [string], Numbers as IEEE-754 binary64 values ([spec_float]
    at precision 53, [emax] 1024), BigInts as [Z], a Record used as a
    map as [gmap].  Asynchronous handlers are run to completion, one
    after the other, in a state-and-exception monad over the process
    state. *)

From Stdlib Require Import ZArith String Ascii List Bool Lia.
From Stdlib Require Import Floats.SpecFloat.
From Stdlib Require DecimalString.
From stdpp Require Import gmap strings.

Local Open Scope Z_scope.

(* ================================================================== *)
(** * JavaScript strings *)

Module JsString.

Definition code (c : ascii) : N := N_of_ascii c.

Definition is_upper (c : ascii) : bool := ((65 <=? code c) && (code c <=? 90))%N.
Definition is_lower (c : ascii) : bool := ((97 <=? code c) && (code c <=? 122))%N.
Definition is_digit (c : ascii) : bool := ((48 <=? code c) && (code c <=? 57))%N.

Definition lower_char (c : ascii) : ascii :=
  if is_upper c then ascii_of_N (code c + 32) else c.
Definition upper_char (c : ascii) : ascii :=
  if is_lower c then ascii_of_N (code c - 32) else c.

Fixpoint map_chars (f : ascii -> ascii) (s : string) : string :=
  match s with
  | EmptyString => EmptyString
  | String c r => String (f c) (map_chars f r)
  end.

(** [String.prototype.toLowerCase] and [toUpperCase], on ASCII strings. *)
Definition toLowerCase : string -> string := map_chars lower_char.
Definition toUpperCase : string -> string := map_chars upper_char.

(** [s.startsWith(p)], returning what follows the prefix. *)
Fixpoint strip_prefix (p s : string) : option string :=
  match p, s with
  | EmptyString, _ => Some s
  | String a p', String b s' => if Ascii.eqb a b then strip_prefix p' s' else None
  | String _ _, EmptyString => None
  end.

(** The longest prefix of decimal digits, and the rest. *)
Fixpoint span_digits (s : string) : string * string :=
  match s with
  | String c r =>
      if is_digit c then let '(d, rest) := span_digits r in (String c d, rest)
      else (EmptyString, s)
  | EmptyString => (EmptyString, EmptyString)
  end.

Definition digit_value (c : ascii) : Z := Z.of_N (code c) - 48.

(** The mathematical value of a string of decimal digits, the empty
    string counting as 0. *)
Fixpoint digits_value_from (acc : Z) (s : string) : Z :=
  match s with
  | EmptyString => acc
  | String c r => digits_value_from (10 * acc + digit_value c) r
  end.
Definition digits_value : string -> Z := digits_value_from 0.

(** [BigInt.prototype.toString()]: decimal digits, a leading [-] on
    negative values. *)
Definition bigint_toString (z : Z) : string :=
  DecimalString.NilEmpty.string_of_int (Z.to_int z).

End JsString.

(* ================================================================== *)
(** * JavaScript Numbers: binary64 *)

Module JsNumber.
Import JsString.

Definition prec : Z := 53.
Definition emax : Z := 1024.

Abbreviation number := spec_float.

(** ** [parseFloat]

    ECMAScript: strip leading white space, take the longest prefix
    that is a [StrDecimalLiteral], and return the Number value of its
    mathematical value; [NaN] when there is no such prefix. *)

Definition is_space (c : ascii) : bool :=
  ((9 <=? code c) && (code c <=? 13) || (code c =? 32))%N.

Fixpoint trim_start (s : string) : string :=
  match s with
  | String c r => if is_space c then trim_start r else s
  | EmptyString => EmptyString
  end.

(** A recognised literal: a sign and either [Infinity] or the decimal
    digits [digits] scaled by [10 ^ exp10]. *)
Inductive literal : Type :=
| LitInfinity (neg : bool)
| LitDecimal (neg : bool) (digits : Z) (exp10 : Z).

(** [ExponentPart]: [e] or [E], an optional sign and at least one
    digit; it is left out of the prefix when the digits are missing. *)
Definition exponent_part (s : string) : Z :=
  match s with
  | String c r =>
      if (Ascii.eqb c "e" || Ascii.eqb c "E")%bool then
        let '(neg, r') :=
          match r with
          | String "+" t => (false, t)
          | String "-" t => (true, t)
          | _ => (false, r)
          end in
        let '(d, _) := span_digits r' in
        match d with
        | EmptyString => 0
        | _ => if neg then - digits_value d else digits_value d
        end
      else 0
  | EmptyString => 0
  end.

Definition unsigned_literal (neg : bool) (s : string) : option literal :=
  match strip_prefix "Infinity" s with
  | Some _ => Some (LitInfinity neg)
  | None =>
      let '(ip, r1) := span_digits s in
      match r1 with
      | String "." r2 =>
          let '(fp, r3) := span_digits r2 in
          match ip, fp with
          | EmptyString, EmptyString => None
          | _, _ =>
              Some (LitDecimal neg (digits_value (ip +:+ fp))
                      (exponent_part r3 - Z.of_nat (String.length fp)))
          end
      | _ =>
          match ip with
          | EmptyString => None
          | _ => Some (LitDecimal neg (digits_value ip) (exponent_part r1))
          end
      end
  end.

Definition StrDecimalLiteral (s : string) : option literal :=
  match trim_start s with
  | String "+" r => unsigned_literal false r
  | String "-" r => unsigned_literal true r
  | t => unsigned_literal false t
  end.

(** The Number value of [m * 10 ^ e] for [m > 0]: the nearest
    binary64, ties to even, infinite past the largest finite value. *)
Definition number_of_decimal (neg : bool) (m : Z) (e : Z) : number :=
  match m with
  | Zpos p =>
      if 0 <=? e then
        match m * 10 ^ e with
        | Zpos q => binary_round prec emax neg q 0
        | _ => S754_nan
        end
      else
        match 10 ^ (- e) with
        | Zpos d => SFdiv prec emax (S754_finite neg p 0) (S754_finite false d 0)
        | _ => S754_nan
        end
  | _ => S754_zero neg
  end.

Definition parseFloat (s : string) : number :=
  match StrDecimalLiteral s with
  | None => S754_nan
  | Some (LitInfinity neg) => S754_infinity neg
  | Some (LitDecimal neg m e) => number_of_decimal neg m e
  end.

(** The Number literals of the source: [1e18], [1000] and [0.01]. *)
Definition n1e18 : number := number_of_decimal false 1 18.
Definition n1000 : number := number_of_decimal false 1000 0.
Definition n0_01 : number := number_of_decimal false 1 (-2).

(** [x * y] on Numbers. *)
Definition mul (x y : number) : number := SFmul prec emax x y.

(** [Math.floor]. *)
Definition Math_floor (x : number) : number :=
  match x with
  | S754_finite s m e =>
      if 0 <=? e then x
      else binary_normalize prec emax (Z.shiftr (cond_Zopp s (Zpos m)) (- e)) 0 s
  | _ => x
  end.

(** [BigInt(x)] on a Number: the integer it denotes, [None] (a
    [RangeError] is thrown) when it is not an integral Number. *)
Definition BigInt (x : number) : option Z :=
  match x with
  | S754_zero _ => Some 0
  | S754_finite s m e =>
      if 0 <=? e then Some (cond_Zopp s (Zpos m * 2 ^ e))
      else if Zpos m mod 2 ^ (- e) =? 0 then Some (cond_Zopp s (Zpos m / 2 ^ (- e)))
      else None
  | _ => None
  end.

End JsNumber.

(* ================================================================== *)
(** * Thrown values and the outcome of a call *)

Module Js.

(** What a [catch] clause receives: an [Error] object with its
    [message], or any other thrown value. *)
Inductive thrown : Type :=
| ErrorObject (message : string)
| NonError.

(** A call returns a value or throws (an [async] function resolves or
    rejects). *)
Inductive outcome (A : Type) : Type :=
| Returned (a : A)
| Threw (e : thrown).
Arguments Returned {A} a.
Arguments Threw {A} e.

(** JavaScript truthiness of a [string | undefined] value. *)
Definition truthy (v : option string) : bool :=
  match v with
  | Some (String _ _) => true
  | _ => false
  end.

End Js.

(* ================================================================== *)
(** * [formatUnits] of ethers *)

Module Ethers.
Import JsString Js.

Fixpoint zeros (n : nat) : string :=
  match n with
  | O => EmptyString
  | S k => String "0" (zeros k)
  end.

(** Left-pad a digit string with zeros to [n] characters. *)
Definition pad_left (n : nat) (s : string) : string :=
  zeros (n - String.length s) +:+ s.

(** Drop trailing zeros, from the reversed end inwards. *)
Fixpoint trim_trailing_zeros (s : string) : string :=
  match s with
  | EmptyString => EmptyString
  | String c r =>
      match trim_trailing_zeros r with
      | EmptyString => if Ascii.eqb c "0" then EmptyString else String c EmptyString
      | r' => String c r'
      end
  end.

(** The fixed-point rendering of [FixedNumber]: the whole part, a
    point, and the fraction without trailing zeros but with at least
    one digit. *)
Definition fixed_toString (val : Z) (decimals : nat) : string :=
  let negative := if val <? 0 then "-" else "" in
  let a := Z.abs val in
  match decimals with
  | O => negative +:+ bigint_toString a
  | _ =>
      let scale := 10 ^ Z.of_nat decimals in
      let frac := pad_left decimals (bigint_toString (a mod scale)) in
      let frac' := match trim_trailing_zeros frac with
                   | EmptyString => "0"
                   | f => f
                   end in
      negative +:+ bigint_toString (a / scale) +:+ "." +:+ frac'
  end.

(** [formatUnits(value, decimals)]: a [FixedNumber] of width 512 is
    built from the value, a [NUMERIC_FAULT] being thrown out of that
    range, and rendered. *)
Definition formatUnits (value : Z) (decimals : nat) : outcome string :=
  if (- 2 ^ 511 <=? value) && (value <? 2 ^ 511)
  then Returned (fixed_toString value decimals)
  else Threw (ErrorObject "overflow").

End Ethers.

(* ================================================================== *)
(** * The agent: process state, collaborators and tools *)

Module Agent.
Import Js JsString JsNumber Ethers.

(** ** Process configuration ([constants.js], [swap.js]) *)

(** [STARKNET_ACCOUNT_ADDRESS] and [STARKNET_PRIVATE_KEY] are read
    from [process.env] ([string | undefined]); [ETH_ADDRESS] and
    [STRK_ADDRESS] are the token addresses exported by [swap.js]. *)
Record Config : Type := {
  STARKNET_ACCOUNT_ADDRESS : option string;
  STARKNET_PRIVATE_KEY : option string;
  ETH_ADDRESS : string;
  STRK_ADDRESS : string
}.

(** ETH token address on Starknet Sepolia. *)
Definition ETH_TOKEN_ADDRESS : string :=
  "0x049d36570d4e46f48e99674bd3fcc84644ddd6b96f7c741b1562b82f9e004dc7".

(** The argument of [account.execute]. *)
Record Call : Type := {
  contractAddress : string;
  entrypoint : string;
  calldata : list string
}.

(** The options of [executeSwap]. *)
Record ExecuteSwapOptions : Type := {
  executeApprove : bool;
  slippage : number
}.

(** ** External collaborators

    The wallet ([util/wallet.js]), the exchange ([swap.js]) and the
    news service ([util/news.js]) are used through their calls only.
    Each call is a transition of the outside world [Ext] that returns
    or throws; nothing else is assumed of them.  The wallet reads the
    key-value store when it resolves a session's account. *)
Record Services : Type := {
  Ext : Type;
  Account : Type;
  address : Account -> string;
  Quote : Type;
  buyAmount : Quote -> Z;
  InvokeSwapResponse : Type;
  transactionHash : InvokeSwapResponse -> string;
  News : Type;
  JSON_stringify : News -> string;
  wallet_getAccount :
    string -> gmap string string -> Ext -> outcome (option Account) * Ext;
  wallet_generateAccount : Ext -> outcome (string * string) * Ext;
  wallet_deployAccount : option string -> Ext -> outcome string * Ext;
  account_execute : Account -> Call -> Ext -> outcome string * Ext;
  swap_getQuote : string -> string -> string -> Ext -> outcome Quote * Ext;
  swap_executeSwap :
    Account -> Quote -> ExecuteSwapOptions -> Ext -> outcome InvokeSwapResponse * Ext;
  news_getNews : Ext -> outcome News * Ext;
  (** the engine's message for the [RangeError] of [BigInt(x)] *)
  BigInt_RangeError : number -> string
}.

(** A repeating timer of the runtime: the [doAction] closure it runs
    (the session and the text it captured) and its delay. *)
Record Interval : Type := {
  session : string;
  whatToDo : string;
  delay : number
}.

Section Tools.
Context (cfg : Config) (svc : Services).

(** Calls made to the collaborators, in order. *)
Inductive event : Type :=
| EvGetAccount (chatId : string)
| EvGenerateAccount
| EvDeployAccount (privateKey : option string)
| EvExecute (account : Account svc) (call : Call)
| EvGetQuote (tokenIn tokenOut amountIn : string)
| EvExecuteSwap (account : Account svc) (quote : Quote svc) (opts : ExecuteSwapOptions)
| EvGetNews
| EvConsoleError (e : thrown).

(** The state of the process and of what it talks to. *)
Record world : Type := {
  ext : Ext svc;
  (** the key-value store behind [util/storage.js] *)
  storage : gmap string string;
  (** [backgroundActionIntervals]: a session's entry is a timer
      handle or [undefined] *)
  backgroundActionIntervals : gmap string (option nat);
  (** the runtime's live interval timers, by handle *)
  intervals : gmap nat Interval;
  (** the next handle [setInterval] hands out *)
  next_handle : nat;
  trace : list event
}.

Definition M (A : Type) : Type := world -> outcome A * world.

Definition ret {A} (a : A) : M A := fun w => (Returned a, w).
Definition throw {A} (e : thrown) : M A := fun w => (Threw e, w).
Definition bind {A B} (m : M A) (k : A -> M B) : M B :=
  fun w =>
    match m w with
    | (Returned a, w') => k a w'
    | (Threw e, w') => (Threw e, w')
    end.

(** [try { body } catch (error) { handler }] *)
Definition try_catch {A} (body : M A) (handler : thrown -> M A) : M A :=
  fun w =>
    match body w with
    | (Returned a, w') => (Returned a, w')
    | (Threw e, w') => handler e w'
    end.

#[global] Instance M_ret : MRet M := @ret.
#[global] Instance M_bind : MBind M := fun A B k m => bind m k.

(** *** Primitive effects *)

Definition set_ext (e : Ext svc) (w : world) : world :=
  {| ext := e; storage := storage w;
     backgroundActionIntervals := backgroundActionIntervals w;
     intervals := intervals w; next_handle := next_handle w; trace := trace w |}.
Definition set_storage (s : gmap string string) (w : world) : world :=
  {| ext := ext w; storage := s;
     backgroundActionIntervals := backgroundActionIntervals w;
     intervals := intervals w; next_handle := next_handle w; trace := trace w |}.
Definition set_backgroundActionIntervals (b : gmap string (option nat)) (w : world) : world :=
  {| ext := ext w; storage := storage w;
     backgroundActionIntervals := b;
     intervals := intervals w; next_handle := next_handle w; trace := trace w |}.
Definition set_intervals (t : gmap nat Interval) (n : nat) (w : world) : world :=
  {| ext := ext w; storage := storage w;
     backgroundActionIntervals := backgroundActionIntervals w;
     intervals := t; next_handle := n; trace := trace w |}.
Definition set_trace (t : list event) (w : world) : world :=
  {| ext := ext w; storage := storage w;
     backgroundActionIntervals := backgroundActionIntervals w;
     intervals := intervals w; next_handle := next_handle w; trace := t |}.

Definition log (ev : event) : M unit :=
  fun w => (Returned tt, set_trace (trace w ++ [ev]) w).

(** A call to a collaborator: recorded, then run on the outside world. *)
Definition call {A} (ev : event) (f : Ext svc -> outcome A * Ext svc) : M A :=
  fun w =>
    let w1 := set_trace (trace w ++ [ev]) w in
    let '(r, e') := f (ext w1) in
    (r, set_ext e' w1).

(** *** The key-value store ([util/storage.js]) *)

(** Modelled from the spec: [util/storage.js] is not part of the
    sources at hand.  The store is a mapping from string keys to
    string values; [get(key)] gives the value or absent
    ([undefined]), [set(key, value)] binds the key.  Storing
    [undefined] leaves the key reading as absent. *)
Definition readFromStorage (key : string) : M (option string) :=
  fun w => (Returned (storage w !! key), w).

Definition saveToStorage (key : string) (value : option string) : M unit :=
  fun w =>
    (Returned tt,
     set_storage
       match value with
       | Some v => <[key := v]> (storage w)
       | None => delete key (storage w)
       end w).

(** *** The wallet, the exchange and the news service *)

Definition getAccount (chatId : string) : M (option (Account svc)) :=
  fun w => call (EvGetAccount chatId) (wallet_getAccount svc chatId (storage w)) w.

Definition generateAccount : M (string * string) :=
  call EvGenerateAccount (wallet_generateAccount svc).

Definition deployAccount (privateKey : option string) : M string :=
  call (EvDeployAccount privateKey) (wallet_deployAccount svc privateKey).

Definition execute (account : Account svc) (c : Call) : M string :=
  call (EvExecute account c) (account_execute svc account c).

Definition getQuote (tokenIn tokenOut amountIn : string) : M (Quote svc) :=
  call (EvGetQuote tokenIn tokenOut amountIn) (swap_getQuote svc tokenIn tokenOut amountIn).

Definition executeSwap (account : Account svc) (quote : Quote svc)
    (opts : ExecuteSwapOptions) : M (InvokeSwapResponse svc) :=
  call (EvExecuteSwap account quote opts) (swap_executeSwap svc account quote opts).

Definition getNews : M (News svc) := call EvGetNews (news_getNews svc).

Definition console_error (e : thrown) : M unit := log (EvConsoleError e).

(** Lift a pure computation that may throw. *)
Definition lift {A} (o : outcome A) : M A := fun w => (o, w).

(** *** The runtime's timers *)

Definition setInterval (callback : Interval) : M nat :=
  fun w =>
    (Returned (next_handle w),
     set_intervals (<[next_handle w := callback]> (intervals w)) (S (next_handle w)) w).

Definition clearInterval (handle : nat) : M unit :=
  fun w => (Returned tt, set_intervals (delete handle (intervals w)) (next_handle w) w).

Definition get_backgroundActionInterval (chatId : string) : M (option nat) :=
  fun w => (Returned (default None (backgroundActionIntervals w !! chatId)), w).

Definition set_backgroundActionInterval (chatId : string) (v : option nat) : M unit :=
  fun w =>
    (Returned tt,
     set_backgroundActionIntervals (<[chatId := v]> (backgroundActionIntervals w)) w).

(** *** The tools *)

Definition no_account : string :=
  "Account does not exist, you need to create one first.".

Definition refusal : string :=
  "The account is set in the env and cannot be changed.".

(** [STARKNET_ACCOUNT_ADDRESS && STARKNET_PRIVATE_KEY] as a condition. *)
Definition account_set_in_env : bool :=
  truthy (STARKNET_ACCOUNT_ADDRESS cfg) && truthy (STARKNET_PRIVATE_KEY cfg).

(** [Math.floor(parseFloat(amountInEth) * 1e18)] *)
Definition floored_wei (amountInEth : string) : number :=
  Math_floor (mul (parseFloat amountInEth) n1e18).

(** [BigInt(Math.floor(parseFloat(amountInEth) * 1e18)).toString()],
    [None] when [BigInt] throws. *)
Definition amountInWei (amountInEth : string) : option string :=
  bigint_toString <$> BigInt (floored_wei amountInEth).

Definition LF : string := String "010"%char EmptyString.

Definition sendEthTool (recipientAddress amountInEth : string) (chatId : string)
    : M string :=
  try_catch
    (account ← getAccount chatId;
     match account with
     | None => mret no_account
     | Some account =>
         amount ←
           match amountInWei amountInEth with
           | Some a => mret a
           | None =>
               throw (ErrorObject (BigInt_RangeError svc (floored_wei amountInEth)))
           end;
         transaction_hash ←
           execute account
             {| contractAddress := ETH_TOKEN_ADDRESS;
                entrypoint := "transfer";
                calldata := [recipientAddress; amount; "0"] |};
         mret ("Transaction submitted to Sepolia. Hash: " +:+ transaction_hash +:+ LF
               +:+ "            View on Starkscan: https://sepolia.starkscan.co/tx/"
               +:+ transaction_hash)
     end)
    (fun error =>
       match error with
       | ErrorObject message => mret ("Error sending ETH: " +:+ message)
       | NonError => mret "Error sending ETH: Unknown error occurred"
       end).

(** The alias resolution of [swapTool], for either token. *)
Definition normalizedToken (tokenAddress : string) : string :=
  if String.eqb (toLowerCase tokenAddress) "eth" then ETH_ADDRESS cfg
  else if String.eqb (toLowerCase tokenAddress) "strk" then STRK_ADDRESS cfg
  else tokenAddress.

Definition swap_success (expectedOutput tokenOutAddress transactionHash : string)
    : string :=
  "✅ Swap executed successfully! You will receive " +:+ expectedOutput +:+ " "
  +:+ toUpperCase tokenOutAddress +:+ ". Transaction hash: " +:+ transactionHash.

Definition swapTool (tokenInAddress tokenOutAddress amountIn : string)
    (chatId : string) : M string :=
  try_catch
    (account ← getAccount chatId;
     match account with
     | None => mret no_account
     | Some account =>
         let normalizedTokenIn := normalizedToken tokenInAddress in
         let normalizedTokenOut := normalizedToken tokenOutAddress in
         quote ← getQuote normalizedTokenIn normalizedTokenOut amountIn;
         expectedOutput ← lift (formatUnits (buyAmount svc quote) 18);
         result ←
           executeSwap account quote
             {| executeApprove := true; slippage := n0_01 |};
         mret (swap_success expectedOutput tokenOutAddress
                 (transactionHash svc result))
     end)
    (fun error =>
       console_error error;;
       let errorMessage :=
         match error with
         | ErrorObject message => message
         | NonError => "Unknown error occurred"
         end in
       mret ("Failed to execute swap: " +:+ errorMessage
             +:+ ". Please try again with a different amount or check your balance.")).

(** The four handlers declared without a schema take [({}, options)]:
    the framework hands them the [input] of the tool call, a string or
    [undefined], and binding the pattern [{}] to [undefined] throws a
    [TypeError] before the body runs. *)
Definition destructure_undefined : thrown :=
  ErrorObject "Cannot destructure 'undefined' as it is undefined.".

Definition bind_empty_pattern (input : option string) : M unit :=
  match input with
  | Some _ => mret tt
  | None => throw destructure_undefined
  end.

(** The body of [getCurrentAccountTool]. *)
Definition getCurrentAccount_body (chatId : string) : M string :=
  account ← getAccount chatId;
  match account with
  | None => mret no_account
  | Some account => mret (address svc account)
  end.

Definition getCurrentAccountTool (input : option string) (chatId : string) : M string :=
  bind_empty_pattern input;;
  getCurrentAccount_body chatId.

Definition generated_key (chatId : string) : string :=
  chatId +:+ ":generatedAccountPrivateKey".
Definition privateKey_key (chatId : string) : string := chatId +:+ ":privateKey".
Definition accountAddress_key (chatId : string) : string :=
  chatId +:+ ":accountAddress".

Definition deployed_text (OZcontractAddress : string) : string :=
  "Account deployed. Address: " +:+ OZcontractAddress.

(** The body of [deployStarknetAccountTool]. *)
Definition deployStarknetAccount_body (chatId : string) : M string :=
  if account_set_in_env then mret refusal
  else
    privateKey ← readFromStorage (generated_key chatId);
    OZcontractAddress ← deployAccount privateKey;
    saveToStorage (privateKey_key chatId) privateKey;;
    saveToStorage (accountAddress_key chatId) (Some OZcontractAddress);;
    mret (deployed_text OZcontractAddress).

Definition deployStarknetAccountTool (input : option string) (chatId : string)
    : M string :=
  bind_empty_pattern input;;
  deployStarknetAccount_body chatId.

Definition generated_text (OZcontractAddress : string) : string :=
  "Here is the new account address: " +:+ OZcontractAddress
  +:+ " . Please send some funds to it using the faucet: https://starknet-faucet.vercel.app . Let me know when you're done and I will deploy the account.".

(** The body of [generateStarknetAccountTool]. *)
Definition generateStarknetAccount_body (chatId : string) : M string :=
  if account_set_in_env then mret refusal
  else
    '(newPrivateKey, OZcontractAddress) ← generateAccount;
    saveToStorage (generated_key chatId) (Some newPrivateKey);;
    mret (generated_text OZcontractAddress).

Definition generateStarknetAccountTool (input : option string) (chatId : string)
    : M string :=
  bind_empty_pattern input;;
  generateStarknetAccount_body chatId.

Definition getNewsTool : M string :=
  news ← getNews;
  mret (JSON_stringify svc news).

Definition startBackgroundAction (whatToDo : string) (intervalInSeconds : number)
    (chatId : string) : M string :=
  current ← get_backgroundActionInterval chatId;
  match current with
  | Some handle =>
      clearInterval handle;;
      set_backgroundActionInterval chatId None
  | None => mret tt
  end;;
  handle ←
    setInterval
      {| session := chatId; whatToDo := whatToDo;
         delay := mul intervalInSeconds n1000 |};
  set_backgroundActionInterval chatId (Some handle);;
  mret "Started.".

(** The body of [stopBackgroundAction]. *)
Definition stopBackgroundAction_body (chatId : string) : M string :=
  current ← get_backgroundActionInterval chatId;
  match current with
  | Some handle =>
      clearInterval handle;;
      set_backgroundActionInterval chatId None
  | None => mret tt
  end;;
  mret "Stopped.".

Definition stopBackgroundAction (input : option string) (chatId : string) : M string :=
  bind_empty_pattern input;;
  stopBackgroundAction_body chatId.

(** *** The tool registry

    The handlers of [tools] that [agent_langchain.ts] defines, with
    the arguments their schemas declare, or the [input] of the call
    for the handlers without a schema.  ([checkBalanceTool] comes from
    [check_balance.js].) *)
Inductive invocation : Type :=
| send_eth (recipientAddress amountInEth : string)
| start_background_action (whatToDo : string) (intervalInSeconds : number)
| stop_background_action (input : option string)
| get_news
| get_starknet_account (input : option string)
| generate_starknet_account (input : option string)
| deploy_starknet_account (input : option string)
| swap (tokenInAddress tokenOutAddress amountIn : string).

Definition invoke_tool (i : invocation) (chatId : string) : M string :=
  match i with
  | send_eth r a => sendEthTool r a chatId
  | start_background_action d s => startBackgroundAction d s chatId
  | stop_background_action input => stopBackgroundAction input chatId
  | get_news => getNewsTool
  | get_starknet_account input => getCurrentAccountTool input chatId
  | generate_starknet_account input => generateStarknetAccountTool input chatId
  | deploy_starknet_account input => deployStarknetAccountTool input chatId
  | swap i o a => swapTool i o a chatId
  end.

(** The process at start-up: no timer, an empty
    [backgroundActionIntervals], whatever the store holds. *)
Definition initial (e : Ext svc) (store : gmap string string) : world :=
  {| ext := e; storage := store; backgroundActionIntervals := ∅;
     intervals := ∅; next_handle := 0; trace := [] |}.

(** The states the process reaches by running tool handlers one
    after the other. *)
Inductive reachable : world -> Prop :=
| reachable_initial e store : reachable (initial e store)
| reachable_invoke w i chatId :
    reachable w -> reachable (invoke_tool i chatId w).2.

(** *** Timers of a session *)

(** The live timers whose callback acts for [chatId]. *)
Definition active_timers (chatId : string) (w : world) : gmap nat Interval :=
  filter (fun p => session p.2 = chatId) (intervals w).

(** Every live timer is the one recorded for its session, every
    recorded handle is live, and handles are fresh. *)
Record timers_wf (w : world) : Prop := {
  wf_recorded : forall h i,
    intervals w !! h = Some i ->
    backgroundActionIntervals w !! session i = Some (Some h);
  wf_live : forall chatId h,
    backgroundActionIntervals w !! chatId = Some (Some h) ->
    exists i, intervals w !! h = Some i /\ session i = chatId;
  wf_fresh : forall h i, intervals w !! h = Some i -> (h < next_handle w)%nat
}.

(** The timers and their map are the same in [w'] as in [w]. *)
Definition same_timers (w w' : world) : Prop :=
  backgroundActionIntervals w' = backgroundActionIntervals w
  /\ intervals w' = intervals w
  /\ next_handle w' = next_handle w.

(** A computation that leaves the timers alone. *)
Definition keeps_timers {A} (m : M A) : Prop :=
  forall w, same_timers w (m w).2.

(** Modelled from the spec: [util/wallet.js] is not part of the sources
    at hand.  The wallet generates a key pair with the address of the
    account not yet deployed, and deploys that address given the private
    key: deploying a generated key yields the address generated with it. *)
Definition wallet_coherent : Prop :=
  forall e key address e' f deployed f',
    wallet_generateAccount svc e = (Returned (key, address), e') ->
    wallet_deployAccount svc (Some key) f = (Returned deployed, f') ->
    deployed = address.

End Tools.

(** ** The dialogue graph *)

Record ToolCall : Type := {
  name : string;
  args : string;
  id : string
}.

(** A message of the history; [tool_calls] is [undefined] on messages
    that carry none. *)
Record Message : Type := {
  content : string;
  tool_calls : option (list ToolCall)
}.

(** [messages[messages.length - 1]] *)
Definition lastMessage (messages : list Message) : option Message :=
  last messages.

Definition shouldContinue (messages : list Message) : outcome string :=
  match lastMessage messages with
  | None =>
      Threw (ErrorObject "Cannot read properties of undefined (reading 'tool_calls')")
  | Some lastMessage =>
      match tool_calls lastMessage with
      | Some (_ :: _) => Returned "tools"
      | _ => Returned "__end__"
      end
  end.

Inductive edge : Type :=
| addEdge (source target : string)
| addConditionalEdges (source : string) (path : list Message -> outcome string).

Definition source_of (e : edge) : string :=
  match e with
  | addEdge s _ => s
  | addConditionalEdges s _ => s
  end.

Definition workflow : list edge :=
  [ addEdge "__start__" "agent";
    addConditionalEdges "agent" shouldContinue;
    addEdge "tools" "agent" ].

(** The node that follows [node] when the history is [messages];
    [None] when the graph has no edge out of [node]. *)
Definition next_node (graph : list edge) (node : string) (messages : list Message)
    : option (outcome string) :=
  match List.find (fun e => String.eqb (source_of e) node) graph with
  | Some (addEdge _ target) => Some (Returned target)
  | Some (addConditionalEdges _ path) => Some (path messages)
  | None => None
  end.

(** The number of pending tool invocations a message carries. *)
Definition pending (m : Message) : nat :=
  match tool_calls m with
  | Some calls => length calls
  | None => 0
  end.

End Agent.

(* ================================================================== *)
(** * What the specification says, in its own words *)

Module Spec.
Import Js JsString JsNumber.

(** Fixed-point scaling at 18 decimal places with truncation: the
    floor of the amount's mathematical value times [10^18], for an
    amount that is a decimal literal. *)
Definition fixed_point_wei (amount : string) : option Z :=
  match StrDecimalLiteral amount with
  | Some (LitDecimal neg m e) =>
      let v := if neg then - m else m in
      Some (if 0 <=? e + 18 then v * 10 ^ (e + 18) else v / 10 ^ (- (e + 18)))
  | _ => None
  end.

(** The generated slot of a session has been consumed: it holds no
    credential any more. *)
Definition generated_slot_consumed (store : gmap string string) (chatId : string) : Prop :=
  store !! (chatId +:+ ":generatedAccountPrivateKey") = None.

(** Two characters are equal ignoring case when they are equal or are
    the two cases of one letter. *)
Definition char_eq_ignoring_case (a b : ascii) : bool :=
  Ascii.eqb a b
  || (is_upper a && (code a + 32 =? code b)%N)
  || (is_upper b && (code b + 32 =? code a)%N).

Fixpoint eq_ignoring_case (s t : string) : bool :=
  match s, t with
  | EmptyString, EmptyString => true
  | String a s', String b t' => char_eq_ignoring_case a b && eq_ignoring_case s' t'
  | _, _ => false
  end.

(** Strings of lower-case letters. *)
Fixpoint all_lower (t : string) : bool :=
  match t with
  | EmptyString => true
  | String b t' => is_lower b && all_lower t'
  end.

(** Case-insensitive resolution of the aliases "eth" and "strk" to the
    canonical addresses [eth] and [strk]; anything else is an address
    already. *)
Definition resolve_alias (eth strk : string) (token : string) : string :=
  if eq_ignoring_case token "eth" then eth
  else if eq_ignoring_case token "strk" then strk
  else token.

End Spec.

(* ================================================================== *)
(** * A small instance of the collaborators

    A wallet that numbers the keys it generates and derives the address
    from the key, an exchange that quotes one for one, a chain that
    accepts every transaction.  Deployment fails when there is no key. *)

Module Demo.
Import Js JsString JsNumber Agent.

Definition generate (n : nat) : outcome (string * string) * nat :=
  let key := "key" +:+ bigint_toString (Z.of_nat n) in
  (Returned (key, "0x" +:+ key), S n).

Definition deploy (privateKey : option string) (n : nat) : outcome string * nat :=
  match privateKey with
  | Some key => (Returned ("0x" +:+ key), n)
  | None => (Threw (ErrorObject "Account is not funded"), n)
  end.

Definition services : Services :=
  {| Ext := nat;
     Account := string;
     address := fun a => a;
     Quote := Z;
     buyAmount := fun q => q;
     InvokeSwapResponse := string * Z;
     transactionHash := fst;
     News := list string;
     JSON_stringify := fun l => "[" +:+ String.concat "," l +:+ "]";
     wallet_getAccount := fun chatId store n =>
       (Returned (store !! accountAddress_key chatId), n);
     wallet_generateAccount := generate;
     wallet_deployAccount := deploy;
     account_execute := fun _ _ n => (Returned "0xabc", n);
     swap_getQuote := fun _ _ amountIn n =>
       (Returned (digits_value amountIn * 10 ^ 18), n);
     swap_executeSwap := fun _ q _ n => (Returned ("0xdef", q - 1), n);
     news_getNews := fun n => (Returned [], n);
     BigInt_RangeError := fun _ => "The number cannot be converted to a BigInt because it is not an integer"
  |}.

(** No account fixed in the environment. *)
Definition per_session : Config :=
  {| STARKNET_ACCOUNT_ADDRESS := None; STARKNET_PRIVATE_KEY := None;
     ETH_ADDRESS := "0x49d3"; STRK_ADDRESS := "0x4718" |}.

(** An account fixed in the environment. *)
Definition fixed_account : Config :=
  {| STARKNET_ACCOUNT_ADDRESS := Some "0x1"; STARKNET_PRIVATE_KEY := Some "0x2";
     ETH_ADDRESS := "0x49d3"; STRK_ADDRESS := "0x4718" |}.

Definition start : world services := initial services 0%nat ∅.

(** A session whose account is deployed. *)
Definition funded : world services :=
  initial services 0%nat {[ accountAddress_key "42" := "0xacc" ]}.

(** The session after generate-account. *)
Definition generated : world services :=
  (generateStarknetAccountTool per_session services (Some "") "42" start).2.

(** The session after start-background-action. *)
Definition watching : world services :=
  (startBackgroundAction services "get the news" n1000 "42" start).2.

End Demo.

(* ================================================================== *)
(** * Start-up *)

Module Startup.
Import Js.

(** How the top-level statements that read [BOT_TOKEN] end:
    [process.exit(1)] after a diagnostic on [console.error], an
    uncaught [Error], or the bot built on the token. *)
Inductive started : Type :=
| Exited (code : Z) (diagnostic : string)
| Crashed (e : thrown)
| Running (botToken : string).

(** [BOT_TOKEN] is [process.env.BOT_TOKEN], read twice. *)
Definition startup (BOT_TOKEN : option string) : started :=
  match BOT_TOKEN with
  | Some (String _ _ as botToken) =>
      if negb (truthy BOT_TOKEN) then Crashed (ErrorObject "BOT_TOKEN is not set")
      else Running botToken
  | _ => Exited 1 "No private key defined for the TG bot"
  end.

End Startup.

(* ================================================================== *)
(** * What a computation may write *)

Module Frames.
Import Js Agent.

Section Frames.
Context {svc : Services}.

(** The store slots of a session. *)
Definition slot_of (chatId : string) (key : string) : Prop :=
  key = generated_key chatId \/ key = privateKey_key chatId
  \/ key = accountAddress_key chatId.

(** A computation that leaves every store key outside [P] as it was. *)
Definition writes_within (P : string -> Prop) {A} (m : M svc A) : Prop :=
  forall w key, ~ P key -> storage svc (m w).2 !! key = storage svc w !! key.

(** A computation that leaves the store alone. *)
Definition keeps_storage {A} (m : M svc A) : Prop :=
  forall w, storage svc (m w).2 = storage svc w.

(** No key at all. *)
Definition nothing : string -> Prop := fun _ => False.

(** The events a run appends to the record of collaborator calls. *)
Definition appends {A} (m : M svc A) (w : world svc) (events : list (event svc)) : Prop :=
  trace svc (m w).2 = trace svc w ++ events.

End Frames.
End Frames.

(* ================================================================== *)
(** * Running the dialogue graph *)

Module Dialogue.
Import Js Agent.

(** The language model ([ChatOpenAI] bound to the tools) and the
    prebuilt [ToolNode] are used through their [invoke] only: the model
    is a transition of the outside world that returns a message or
    throws, the tool node a transition of the process that returns the
    tool messages or throws.  [GraphRecursionError] is the message of
    the error the graph runtime throws at its recursion limit. *)
Record Engine (svc : Services) : Type := {
  model_invoke : list Message -> Ext svc -> outcome Message * Ext svc;
  toolNode : list Message -> world svc -> outcome (list Message) * world svc;
  GraphRecursionError : string
}.

Section Graph.
Context {svc : Services} (eng : Engine svc).

(** The reducer of [StateAnnotation.messages]: [x.concat(y)]. *)
Definition reducer (x y : list Message) : list Message := x ++ y.

(** [new HumanMessage(text)] *)
Definition HumanMessage (text : string) : Message :=
  {| content := text; tool_calls := None |}.

(** [callModel]: the update [{ messages: [response] }]. *)
Definition callModel (messages : list Message) : M svc (list Message) :=
  response ←
    (fun w =>
       let '(r, e') := model_invoke svc eng messages (ext svc w) in
       (r, set_ext svc e' w));
  mret [response].

(** The nodes added to the graph, by name. *)
Definition nodes : list (string * (list Message -> M svc (list Message))) :=
  [ ("agent", callModel); ("tools", toolNode svc eng) ].

Definition node_action (name : string) : option (list Message -> M svc (list Message)) :=
  snd <$> List.find (fun n => String.eqb (fst n) name) nodes.

(** The run of the compiled graph from [node]: the node's update goes
    through the reducer, the edges of [workflow] give the next node,
    [__end__] stops the run; the runtime gives up with an error after
    [limit] nodes. *)
Fixpoint run (limit : nat) (node : string) (messages : list Message)
    : M svc (list Message) :=
  match limit with
  | O => throw svc (ErrorObject (GraphRecursionError svc eng))
  | S limit' =>
      match node_action node with
      | None => throw svc (ErrorObject ("Unknown node " +:+ node))
      | Some action =>
          update ← action messages;
          let messages' := reducer messages update in
          match next_node workflow node messages' with
          | Some (Returned next) =>
              if String.eqb next "__end__" then mret messages'
              else run limit' next messages'
          | Some (Threw e) => throw svc e
          | None => mret messages'
          end
      end
  end.

(** [app.invoke({ messages: input }, { configurable: { thread_id } })],
    [saved] being the history the checkpointer holds for the thread. *)
Definition invoke (limit : nat) (saved input : list Message) : M svc (list Message) :=
  let messages := reducer saved input in
  match next_node workflow "__start__" messages with
  | Some (Returned entry) => run limit entry messages
  | Some (Threw e) => throw svc e
  | None => mret messages
  end.

(** [finalState.messages[finalState.messages.length - 1].content] *)
Definition last_content (messages : list Message) : outcome string :=
  match lastMessage messages with
  | Some m => Returned (content m)
  | None => Threw (ErrorObject "Cannot read properties of undefined (reading 'content')")
  end.

(** The handler of a text message of the bot: nothing for a falsy chat
    id; otherwise a turn of the graph on the text, and the reply.  The
    result is the reply sent, if any, and the thread's history. *)
Definition on_text (limit : nat) (chat_id : Z) (text : string) (saved : list Message)
    : M svc (option string * list Message) :=
  if chat_id =? 0 then mret (None, saved)
  else
    finalState ← invoke limit saved [HumanMessage text];
    reply ← lift svc (last_content finalState);
    mret (Some reply, finalState).

End Graph.
End Dialogue.

(* ================================================================== *)
(** * Small instances of the model and the tool node *)

Module DemoEngine.
Import Js JsString JsNumber Agent Dialogue.

Definition ask_news : Message :=
  {| content := "";
     tool_calls := Some [ {| name := "get_news"; args := "{}"; id := "call_1" |} ] |}.

Definition answer : Message :=
  {| content := "No news today."; tool_calls := None |}.

(** A tool node that runs [getNewsTool] for the pending call. *)
Definition news_node (messages : list Message) (w : world Demo.services)
    : outcome (list Message) * world Demo.services :=
  match getNewsTool Demo.services w with
  | (Returned text, w') => (Returned [ {| content := text; tool_calls := None |} ], w')
  | (Threw e, w') => (Threw e, w')
  end.

(** A model that asks for the news once, then answers. *)
Definition newsreader : Engine Demo.services :=
  {| model_invoke := fun messages n =>
       match lastMessage messages with
       | Some m => if String.eqb (content m) "[]" then (Returned answer, n)
                   else (Returned ask_news, n)
       | None => (Returned answer, n)
       end;
     toolNode := news_node;
     GraphRecursionError := "Recursion limit reached" |}.

(** A model that answers at once. *)
Definition direct : Engine Demo.services :=
  {| model_invoke := fun _ n => (Returned answer, n);
     toolNode := news_node;
     GraphRecursionError := "Recursion limit reached" |}.

(** A model that asks for the news for ever. *)
Definition insatiable : Engine Demo.services :=
  {| model_invoke := fun _ n => (Returned ask_news, n);
     toolNode := news_node;
     GraphRecursionError := "Recursion limit reached" |}.

(** A model that is down. *)
Definition down : Engine Demo.services :=
  {| model_invoke := fun _ n => (Threw (ErrorObject "503"), n);
     toolNode := news_node;
     GraphRecursionError := "Recursion limit reached" |}.

End DemoEngine.

(* ================================================================== *)
(** * An instance whose chain and exchange fail *)

Module Outage.
Import Js JsString JsNumber Agent.

(** The wallet of [Demo], a chain that rejects every transaction and an
    exchange that has no quote. *)
Definition services : Services :=
  {| Ext := nat;
     Account := string;
     address := fun a => a;
     Quote := Z;
     buyAmount := fun q => q;
     InvokeSwapResponse := string * Z;
     transactionHash := fst;
     News := list string;
     JSON_stringify := fun l => "[" +:+ String.concat "," l +:+ "]";
     wallet_getAccount := fun chatId store n =>
       (Returned (store !! accountAddress_key chatId), n);
     wallet_generateAccount := Demo.generate;
     wallet_deployAccount := Demo.deploy;
     account_execute := fun _ _ n => (Threw (ErrorObject "Insufficient balance"), n);
     swap_getQuote := fun _ _ _ n => (Threw NonError, n);
     swap_executeSwap := fun _ q _ n => (Returned ("0xdef", q - 1), n);
     news_getNews := fun n => (Threw (ErrorObject "503"), n);
     BigInt_RangeError := fun _ => "not an integer"
  |}.

Definition funded : world services :=
  initial services 0%nat {[ accountAddress_key "42" := "0xacc" ]}.

End Outage.

(* ================================================================== *)
(** * Properties *)

Import Js JsString JsNumber Ethers Agent.

(** Case analysis on the 256 characters. *)
Ltac all_chars a := destruct a as [[] [] [] [] [] [] [] []].

(** ** Running the monad *)

Section Run.
Context {svc : Services}.

Lemma bind_returned {A B} (m : M svc A) (k : A -> M svc B) w a w' :
  m w = (Returned a, w') -> (m ≫= k) w = k a w'.
Proof. intros H. unfold mbind, M_bind, bind. by rewrite H. Qed.

Lemma bind_threw {A B} (m : M svc A) (k : A -> M svc B) w e w' :
  m w = (Threw e, w') -> (m ≫= k) w = (Threw e, w').
Proof. intros H. unfold mbind, M_bind, bind. by rewrite H. Qed.

Lemma call_returned {A} ev (f : Ext svc -> outcome A * Ext svc) w r e' :
  f (ext svc w) = (r, e') ->
  call svc ev f w = (r, set_ext svc e' (set_trace svc (trace svc w ++ [ev]) w)).
Proof. intros H. unfold call. simpl. by rewrite H. Qed.

(** A handler wrapped in [try]/[catch] whose [catch] clause returns
    never throws. *)
Lemma try_catch_returns {A} (body : M svc A) handler w :
  (forall e w', exists a, (handler e w').1 = Returned a) ->
  exists a, (try_catch svc body handler w).1 = Returned a.
Proof.
  intros Hh. unfold try_catch.
  destruct (body w) as [[a|e] w'] eqn:Hb; [by exists a | apply Hh].
Qed.

(** A handler whose first parameter is [{}] runs its body on a call
    with an input, and throws, leaving everything as it was, on a call
    without. *)
Lemma bind_empty_pattern_some {A} (i : string) (body : M svc A) :
  (bind_empty_pattern svc (Some i);; body) = body.
Proof. reflexivity. Qed.

Lemma bind_empty_pattern_none {A} (body : M svc A) (w : world svc) :
  (bind_empty_pattern svc None;; body) w = (Threw destructure_undefined, w).
Proof. reflexivity. Qed.

End Run.

(** ** send-funds: the conversion to wei *)

Lemma amountInWei_one_wei : amountInWei "0.000000000000000001" = Some "1".
Proof. vm_compute. reflexivity. Qed.

Lemma amountInWei_seven_cents :
  amountInWei "0.07" = Some "70000000000000008"
  /\ Spec.fixed_point_wei "0.07" = Some 70000000000000000.
Proof. split; vm_compute; reflexivity. Qed.

(** C1 (the code breaks it).  [sendEthTool] converts the amount with
    binary64 arithmetic, [Math.floor(parseFloat(amountInEth) * 1e18)]:
    the amount [0.000000000000000001] does become [1], but
    [1.1234567891234567891] becomes [1123456789123456768], while fixed-point
    scaling at 18 decimal places with truncation gives
    [1123456789123456789]. *)
Theorem amountInWei_is_not_fixed_point :
  amountInWei "0.000000000000000001" = Some "1"
  /\ amountInWei "1.1234567891234567891" = Some "1123456789123456768"
  /\ Spec.fixed_point_wei "1.1234567891234567891" = Some 1123456789123456789
  /\ Spec.fixed_point_wei "0.000000000000000001" = Some 1.
Proof. repeat split; vm_compute; reflexivity. Qed.

(** With an account for the session, send-funds submits one transfer of
    the converted amount and reports its hash. *)
Lemma sendEthTool_transfers (svc : Services) recipientAddress amountInEth chatId
    (w : world svc) account amount hash e1 e2 :
  wallet_getAccount svc chatId (storage svc w) (ext svc w) = (Returned (Some account), e1) ->
  amountInWei amountInEth = Some amount ->
  account_execute svc account
    {| contractAddress := ETH_TOKEN_ADDRESS; entrypoint := "transfer";
       calldata := [recipientAddress; amount; "0"] |} e1
  = (Returned hash, e2) ->
  exists text,
    sendEthTool svc recipientAddress amountInEth chatId w
    = (Returned text,
       set_ext svc e2
         (set_trace svc
            (trace svc w
             ++ [EvGetAccount svc chatId;
                 EvExecute svc account
                   {| contractAddress := ETH_TOKEN_ADDRESS; entrypoint := "transfer";
                      calldata := [recipientAddress; amount; "0"] |}]) w)).
Proof.
  intros Ha Hw Hx. eexists.
  unfold sendEthTool, try_catch, getAccount, execute.
  unfold mbind, M_bind, bind, mret, M_ret, ret, call. simpl.
  rewrite Ha. simpl. rewrite Hw. simpl. rewrite Hx. simpl.
  unfold set_ext, set_trace. simpl. rewrite <- app_assoc. reflexivity.
Qed.

(** ** The dialogue graph *)

Lemma shouldContinue_last (history : list Message) (m : Message) :
  shouldContinue (history ++ [m])
  = Returned (if (0 <? pending m)%nat then "tools" else "__end__").
Proof.
  unfold shouldContinue, lastMessage, pending. rewrite last_snoc.
  destruct (tool_calls m) as [[|c calls]|]; reflexivity.
Qed.

(** C5.  The graph starts at [agent]; after [agent], whose response is
    the latest message, it goes to [tools] when that message carries at
    least one pending tool invocation and to the terminal [__end__]
    otherwise; after [tools] it goes back to [agent]; nothing follows
    [__end__]. *)
Theorem workflow_transitions (history : list Message) (response : Message) :
  next_node workflow "__start__" history = Some (Returned "agent")
  /\ next_node workflow "agent" (history ++ [response])
     = Some (Returned (if (1 <=? pending response)%nat then "tools" else "__end__"))
  /\ next_node workflow "tools" (history ++ [response]) = Some (Returned "agent")
  /\ next_node workflow "__end__" (history ++ [response]) = None.
Proof.
  repeat split; try reflexivity.
  unfold next_node; simpl. rewrite shouldContinue_last.
  by destruct (pending response).
Qed.

(** ** The fixed account of the environment *)

(** C6 (the code breaks it).  When both [STARKNET_ACCOUNT_ADDRESS] and
    [STARKNET_PRIVATE_KEY] are set (defined and not empty, as the
    condition tests them), generate-account and deploy-account return
    the refusal text and leave the whole state as it was only for a
    tool call that carries an input.  For a call without input the
    binding of the handlers' first parameter [{}] throws before the
    test of the environment: no refusal is returned. *)
Theorem fixed_account_refusal_needs_input (cfg : Config) (svc : Services)
    (input : option string) (chatId : string) (w : world svc) :
  truthy (STARKNET_ACCOUNT_ADDRESS cfg) = true ->
  truthy (STARKNET_PRIVATE_KEY cfg) = true ->
  let outcome :=
    match input with
    | Some _ => Returned "The account is set in the env and cannot be changed."
    | None => Threw (ErrorObject "Cannot destructure 'undefined' as it is undefined.")
    end in
  generateStarknetAccountTool cfg svc input chatId w = (outcome, w)
  /\ deployStarknetAccountTool cfg svc input chatId w = (outcome, w).
Proof.
  intros Ha Hk outcome. subst outcome.
  destruct input as [i|]; [|split; reflexivity].
  change (generateStarknetAccountTool cfg svc (Some i) chatId)
    with (generateStarknetAccount_body cfg svc chatId).
  change (deployStarknetAccountTool cfg svc (Some i) chatId)
    with (deployStarknetAccount_body cfg svc chatId).
  unfold generateStarknetAccount_body, deployStarknetAccount_body, account_set_in_env.
  rewrite Ha, Hk. split; reflexivity.
Qed.

Lemma fixed_account_refusal_needs_input_witness :
  generateStarknetAccountTool Demo.fixed_account Demo.services None "42" Demo.funded
  = (Threw (ErrorObject "Cannot destructure 'undefined' as it is undefined."), Demo.funded)
  /\ deployStarknetAccountTool Demo.fixed_account Demo.services None "42" Demo.funded
     = (Threw (ErrorObject "Cannot destructure 'undefined' as it is undefined."),
        Demo.funded).
Proof.
  apply (fixed_account_refusal_needs_input Demo.fixed_account Demo.services None "42"
           Demo.funded);
    reflexivity.
Defined.

(** ** Failures of the collaborators *)

(** send-funds catches whatever its collaborators throw. *)
Lemma sendEthTool_returns_text (svc : Services) recipientAddress amountInEth chatId w :
  exists text, (sendEthTool svc recipientAddress amountInEth chatId w).1 = Returned text.
Proof.
  apply try_catch_returns. intros [message|] w'; eexists; reflexivity.
Qed.

(** swap catches whatever its collaborators throw. *)
Lemma swapTool_returns_text (cfg : Config) (svc : Services) tokenIn tokenOut amountIn chatId w :
  exists text, (swapTool cfg svc tokenIn tokenOut amountIn chatId w).1 = Returned text.
Proof.
  apply try_catch_returns. intros [message|] w'; eexists; reflexivity.
Qed.

(** generate-account lets a failure of the wallet through. *)
Lemma generateStarknetAccountTool_throws (cfg : Config) (svc : Services)
    input chatId w e ext' :
  account_set_in_env cfg = false ->
  wallet_generateAccount svc (ext svc w) = (Threw e, ext') ->
  (generateStarknetAccountTool cfg svc input chatId w).1
  = Threw match input with Some _ => e | None => destructure_undefined end.
Proof.
  intros Hc Hg. destruct input as [i|]; [|reflexivity].
  change (generateStarknetAccountTool cfg svc (Some i) chatId)
    with (generateStarknetAccount_body cfg svc chatId).
  unfold generateStarknetAccount_body. rewrite Hc.
  erewrite bind_threw; [reflexivity|].
  unfold generateAccount. by apply call_returned.
Qed.

(** get-news lets a failure of the news service through. *)
Lemma getNewsTool_throws (svc : Services) w e ext' :
  news_getNews svc (ext svc w) = (Threw e, ext') ->
  (getNewsTool svc w).1 = Threw e.
Proof.
  intros Hg. unfold getNewsTool.
  erewrite bind_threw; [reflexivity|].
  unfold getNews. by apply call_returned.
Qed.

(** get-current-account lets a failure of the wallet through. *)
Lemma getCurrentAccountTool_throws (svc : Services) input chatId w e ext' :
  wallet_getAccount svc chatId (storage svc w) (ext svc w) = (Threw e, ext') ->
  (getCurrentAccountTool svc input chatId w).1
  = Threw match input with Some _ => e | None => destructure_undefined end.
Proof.
  intros Hg. destruct input as [i|]; [|reflexivity].
  change (getCurrentAccountTool svc (Some i) chatId) with (getCurrentAccount_body svc chatId).
  unfold getCurrentAccount_body.
  erewrite bind_threw; [reflexivity|].
  unfold getAccount. by apply call_returned.
Qed.

(** The body of deploy-account lets a failure of the wallet through. *)
Lemma deployStarknetAccountTool_propagates (cfg : Config) (svc : Services)
    chatId (w : world svc) e ext' :
  account_set_in_env cfg = false ->
  wallet_deployAccount svc (storage svc w !! generated_key chatId) (ext svc w)
  = (Threw e, ext') ->
  deployStarknetAccount_body cfg svc chatId w
  = (Threw e,
     set_ext svc ext'
       (set_trace svc
          (trace svc w ++ [EvDeployAccount svc (storage svc w !! generated_key chatId)]) w)).
Proof.
  intros Hc Hd. unfold deployStarknetAccount_body. rewrite Hc.
  erewrite bind_returned by reflexivity.
  erewrite bind_threw; [reflexivity|].
  unfold deployAccount. by apply call_returned.
Qed.

(** C2 (the code breaks it).  send-funds and swap catch whatever their
    collaborators throw and return a text, but deploy-account has no
    [try]/[catch]: when the wallet's [deployAccount] throws, the handler
    throws the same value past the tool boundary instead of returning a
    text (and on a call without input it throws before it reaches the
    wallet). *)
Theorem deployStarknetAccountTool_throws (cfg : Config) (svc : Services)
    (input : option string) (chatId : string) (w : world svc) (e : thrown)
    (ext' : Ext svc) :
  account_set_in_env cfg = false ->
  wallet_deployAccount svc (storage svc w !! generated_key chatId) (ext svc w)
  = (Threw e, ext') ->
  (deployStarknetAccountTool cfg svc input chatId w).1
  = Threw match input with Some _ => e | None => destructure_undefined end
  /\ (forall recipientAddress amountInEth,
        exists text,
          (sendEthTool svc recipientAddress amountInEth chatId w).1 = Returned text)
  /\ (forall tokenIn tokenOut amountIn,
        exists text,
          (swapTool cfg svc tokenIn tokenOut amountIn chatId w).1 = Returned text).
Proof.
  intros Hc Hd. split; [|split].
  - destruct input as [i|]; [|reflexivity].
    change (deployStarknetAccountTool cfg svc (Some i) chatId)
      with (deployStarknetAccount_body cfg svc chatId).
    by rewrite (deployStarknetAccountTool_propagates cfg svc chatId w e ext' Hc Hd).
  - intros. apply sendEthTool_returns_text.
  - intros. apply swapTool_returns_text.
Qed.

Lemma deployStarknetAccountTool_throws_witness :
  (deployStarknetAccountTool Demo.per_session Demo.services (Some "") "42" Demo.start).1
  = Threw (ErrorObject "Account is not funded").
Proof.
  apply (deployStarknetAccountTool_throws Demo.per_session Demo.services (Some "") "42"
           Demo.start (ErrorObject "Account is not funded") 0%nat eq_refl eq_refl).
Defined.

(** ** swap *)

(** Lower-casing a character and comparing with a lower-case letter is
    comparing the two ignoring case. *)
Lemma lower_char_eqb (a b : ascii) :
  is_lower b = true ->
  Ascii.eqb (lower_char a) b = Spec.char_eq_ignoring_case a b.
Proof.
  all_chars b; intros Hb; try discriminate Hb; all_chars a; reflexivity.
Qed.

Lemma toLowerCase_eqb (t s : string) :
  Spec.all_lower t = true ->
  String.eqb (toLowerCase s) t = Spec.eq_ignoring_case s t.
Proof.
  revert s. induction t as [|b t IH]; intros [|a s] Ht; simpl; try reflexivity.
  apply andb_true_iff in Ht as [Hb Ht].
  rewrite (lower_char_eqb a b Hb).
  destruct (Spec.char_eq_ignoring_case a b); simpl; [by apply IH | reflexivity].
Qed.

(** The alias resolution of [swapTool] is the case-insensitive one. *)
Lemma normalizedToken_resolve (cfg : Config) (t : string) :
  normalizedToken cfg t = Spec.resolve_alias (ETH_ADDRESS cfg) (STRK_ADDRESS cfg) t.
Proof.
  unfold normalizedToken, Spec.resolve_alias.
  by rewrite !toLowerCase_eqb.
Qed.

(** Upper-casing does not tell apart strings equal ignoring case. *)
Lemma upper_char_ignoring_case (a b : ascii) :
  Spec.char_eq_ignoring_case a b = true -> upper_char a = upper_char b.
Proof.
  unfold Spec.char_eq_ignoring_case. intros H.
  apply orb_true_iff in H as [H|H]; [apply orb_true_iff in H as [H|H]|].
  - by apply Ascii.eqb_eq in H as ->.
  - apply andb_true_iff in H as [Hu H]. apply N.eqb_eq in H.
    assert (b = ascii_of_N (code a + 32)) as ->
      by (rewrite H; unfold code; by rewrite ascii_N_embedding).
    all_chars a; try discriminate Hu; reflexivity.
  - apply andb_true_iff in H as [Hu H]. apply N.eqb_eq in H.
    assert (a = ascii_of_N (code b + 32)) as ->
      by (rewrite H; unfold code; by rewrite ascii_N_embedding).
    all_chars b; try discriminate Hu; reflexivity.
Qed.

Lemma toUpperCase_ignoring_case (s t : string) :
  Spec.eq_ignoring_case s t = true -> toUpperCase s = toUpperCase t.
Proof.
  revert t. induction s as [|a s IH]; intros [|b t] H; simpl in H; try done.
  apply andb_true_iff in H as [Hc H].
  change (String (upper_char a) (toUpperCase s) = String (upper_char b) (toUpperCase t)).
  by rewrite (upper_char_ignoring_case a b Hc), (IH t H).
Qed.

(** With an account for the session, [swapTool] first asks for the
    quote of the resolved tokens; what follows is decided by that quote. *)
Lemma swapTool_quotes (cfg : Config) (svc : Services)
    tokenIn tokenOut amountIn chatId (w : world svc) account e1 :
  wallet_getAccount svc chatId (storage svc w) (ext svc w) = (Returned (Some account), e1) ->
  exists rest,
    trace svc (swapTool cfg svc tokenIn tokenOut amountIn chatId w).2
    = trace svc w
      ++ EvGetAccount svc chatId
      :: EvGetQuote svc (normalizedToken cfg tokenIn) (normalizedToken cfg tokenOut) amountIn
      :: rest.
Proof.
  intros Ha.
  unfold swapTool, try_catch, getAccount, getQuote, executeSwap, console_error, log, lift.
  unfold mbind, M_bind, bind, mret, M_ret, ret, call. simpl. rewrite Ha. simpl.
  destruct (swap_getQuote svc _ _ _ e1) as [[q|e] e2]; simpl.
  - destruct (formatUnits (buyAmount svc q) 18) as [out|e]; simpl.
    + destruct (swap_executeSwap svc account q _ e2) as [[r|e] e3]; simpl;
        rewrite <- !app_assoc; simpl; eauto.
    + rewrite <- !app_assoc; simpl; eauto.
  - rewrite <- !app_assoc; simpl; eauto.
Qed.

(** C7.  swap resolves its token arguments case-insensitively, "eth" in
    any case to [ETH_ADDRESS] and "strk" in any case to [STRK_ADDRESS]
    (anything else is passed as it is), and the quote is requested for
    the resolved addresses; an alias in another case behaves as the
    lower-case one. *)
Theorem swap_resolves_aliases (cfg : Config) (svc : Services)
    (tokenIn tokenOut amountIn chatId : string) (w : world svc)
    (account : Account svc) (e1 : Ext svc) :
  wallet_getAccount svc chatId (storage svc w) (ext svc w) = (Returned (Some account), e1) ->
  (exists rest,
     trace svc (swapTool cfg svc tokenIn tokenOut amountIn chatId w).2
     = trace svc w
       ++ EvGetAccount svc chatId
       :: EvGetQuote svc
            (Spec.resolve_alias (ETH_ADDRESS cfg) (STRK_ADDRESS cfg) tokenIn)
            (Spec.resolve_alias (ETH_ADDRESS cfg) (STRK_ADDRESS cfg) tokenOut)
            amountIn
       :: rest)
  /\ (forall a b,
        a = "eth" \/ a = "strk" -> b = "eth" \/ b = "strk" ->
        Spec.eq_ignoring_case tokenIn a = true ->
        Spec.eq_ignoring_case tokenOut b = true ->
        swapTool cfg svc tokenIn tokenOut amountIn chatId w
        = swapTool cfg svc a b amountIn chatId w).
Proof.
  intros Ha. split.
  - rewrite <- !normalizedToken_resolve. by eapply swapTool_quotes.
  - intros a b Hin Hout Hi Ho.
    assert (forall t c, c = "eth" \/ c = "strk" -> Spec.eq_ignoring_case t c = true ->
                        normalizedToken cfg t = normalizedToken cfg c) as Hn.
    { intros t c Hc Ht. rewrite !normalizedToken_resolve. unfold Spec.resolve_alias.
      destruct Hc as [-> | ->].
      - by rewrite Ht.
      - rewrite Ht.
        destruct t as [|c1 [|c2 [|c3 [|c4 [|c5 t]]]]]; simpl in Ht; try discriminate Ht;
          try (rewrite !andb_false_r in Ht; discriminate Ht).
        simpl. by rewrite !andb_false_r. }
    unfold swapTool.
    rewrite (Hn tokenIn a Hin Hi), (Hn tokenOut b Hout Ho).
    unfold swap_success. by rewrite (toUpperCase_ignoring_case tokenOut b Ho).
Qed.

Lemma swap_resolves_aliases_witness :
  (exists rest,
     trace Demo.services
       (swapTool Demo.per_session Demo.services "ETH" "Strk" "3" "42" Demo.funded).2
     = [] ++ EvGetAccount Demo.services "42"
          :: EvGetQuote Demo.services "0x49d3" "0x4718" "3" :: rest)
  /\ swapTool Demo.per_session Demo.services "ETH" "Strk" "3" "42" Demo.funded
     = swapTool Demo.per_session Demo.services "eth" "strk" "3" "42" Demo.funded.
Proof.
  destruct (swap_resolves_aliases Demo.per_session Demo.services "ETH" "Strk" "3" "42"
              Demo.funded "0xacc" 0%nat eq_refl) as [Hq Hsame].
  split; [exact Hq|].
  apply Hsame; [by left | by right | reflexivity | reflexivity].
Defined.

(** C10.  On success the amount in swap's message is the [buyAmount] of
    the quote, obtained before the swap is executed, formatted at 18
    decimal places; the result of the execution gives the transaction
    hash and nothing else. *)
Theorem swap_message_from_quote (cfg : Config) (svc : Services)
    (tokenIn tokenOut amountIn chatId : string) (w : world svc)
    (account : Account svc) (quote : Quote svc) (result : InvokeSwapResponse svc)
    (expectedOutput : string) (e1 e2 e3 : Ext svc) :
  wallet_getAccount svc chatId (storage svc w) (ext svc w) = (Returned (Some account), e1) ->
  swap_getQuote svc (normalizedToken cfg tokenIn) (normalizedToken cfg tokenOut) amountIn e1
  = (Returned quote, e2) ->
  formatUnits (buyAmount svc quote) 18 = Returned expectedOutput ->
  swap_executeSwap svc account quote {| executeApprove := true; slippage := n0_01 |} e2
  = (Returned result, e3) ->
  (swapTool cfg svc tokenIn tokenOut amountIn chatId w).1
  = Returned ("✅ Swap executed successfully! You will receive " +:+ expectedOutput
              +:+ " " +:+ toUpperCase tokenOut +:+ ". Transaction hash: "
              +:+ transactionHash svc result).
Proof.
  intros Ha Hq Hf Hx.
  unfold swapTool, try_catch, getAccount, getQuote, executeSwap, lift.
  unfold mbind, M_bind, bind, mret, M_ret, ret, call. simpl.
  rewrite Ha. simpl. rewrite Hq. simpl. rewrite Hf. simpl. rewrite Hx. reflexivity.
Qed.

Lemma swap_message_from_quote_witness :
  (swapTool Demo.per_session Demo.services "eth" "strk" "3" "42" Demo.funded).1
  = Returned
      "✅ Swap executed successfully! You will receive 3.0 STRK. Transaction hash: 0xdef".
Proof.
  apply (swap_message_from_quote Demo.per_session Demo.services "eth" "strk" "3" "42"
           Demo.funded "0xacc" 3000000000000000000 ("0xdef", 2999999999999999999)
           "3.0" 0%nat 0%nat 0%nat);
    reflexivity.
Defined.

(** ** Account credentials *)

Lemma generated_key_ne_privateKey_key (chatId : string) :
  generated_key chatId <> privateKey_key chatId.
Proof. intros H. apply (String.app_inj chatId) in H. discriminate H. Qed.

Lemma generated_key_ne_accountAddress_key (chatId : string) :
  generated_key chatId <> accountAddress_key chatId.
Proof. intros H. apply (String.app_inj chatId) in H. discriminate H. Qed.

Lemma privateKey_key_ne_accountAddress_key (chatId : string) :
  privateKey_key chatId <> accountAddress_key chatId.
Proof. intros H. apply (String.app_inj chatId) in H. discriminate H. Qed.

(** What the store reads after [saveToStorage]. *)
Lemma saved_lookup (store : gmap string string) (key : string) (value : option string) :
  match value with
  | Some v => <[key := v]> store
  | None => delete key store
  end !! key = value.
Proof. destruct value; [apply lookup_insert_eq | apply lookup_delete_eq]. Qed.

Lemma saved_lookup_ne (store : gmap string string) (key key' : string)
    (value : option string) :
  key <> key' ->
  match value with
  | Some v => <[key := v]> store
  | None => delete key store
  end !! key' = store !! key'.
Proof.
  intros Hne. destruct value; [by apply lookup_insert_ne | by apply lookup_delete_ne].
Qed.

(** generate-account, run: one call to the wallet, the new key stored
    in the generated slot. *)
Lemma generateStarknetAccountTool_run (cfg : Config) (svc : Services)
    chatId (w : world svc) newPrivateKey OZcontractAddress e' :
  account_set_in_env cfg = false ->
  wallet_generateAccount svc (ext svc w) = (Returned (newPrivateKey, OZcontractAddress), e') ->
  generateStarknetAccount_body cfg svc chatId w
  = (Returned (generated_text OZcontractAddress),
     {| ext := e';
        storage := <[generated_key chatId := newPrivateKey]> (storage svc w);
        backgroundActionIntervals := backgroundActionIntervals svc w;
        intervals := intervals svc w;
        next_handle := next_handle svc w;
        trace := trace svc w ++ [EvGenerateAccount svc] |}).
Proof.
  intros Hc Hg. unfold generateStarknetAccount_body. rewrite Hc.
  unfold generateAccount, saveToStorage.
  unfold mbind, M_bind, bind, mret, M_ret, ret, call. simpl. rewrite Hg. reflexivity.
Qed.

(** deploy-account, run: the key of the generated slot goes to the
    wallet; the key and the address it returns are stored. *)
Lemma deployStarknetAccountTool_run (cfg : Config) (svc : Services)
    chatId (w : world svc) OZcontractAddress e' :
  account_set_in_env cfg = false ->
  wallet_deployAccount svc (storage svc w !! generated_key chatId) (ext svc w)
  = (Returned OZcontractAddress, e') ->
  deployStarknetAccount_body cfg svc chatId w
  = (Returned (deployed_text OZcontractAddress),
     {| ext := e';
        storage :=
          <[accountAddress_key chatId := OZcontractAddress]>
            match storage svc w !! generated_key chatId with
            | Some v => <[privateKey_key chatId := v]> (storage svc w)
            | None => delete (privateKey_key chatId) (storage svc w)
            end;
        backgroundActionIntervals := backgroundActionIntervals svc w;
        intervals := intervals svc w;
        next_handle := next_handle svc w;
        trace := trace svc w
                 ++ [EvDeployAccount svc (storage svc w !! generated_key chatId)] |}).
Proof.
  intros Hc Hd. unfold deployStarknetAccount_body. rewrite Hc.
  unfold readFromStorage, deployAccount, saveToStorage.
  unfold mbind, M_bind, bind, mret, M_ret, ret, call. simpl. rewrite Hd. reflexivity.
Qed.

(** deploy-account returns only when the wallet deployed the key. *)
Lemma deployStarknetAccountTool_returned (cfg : Config) (svc : Services)
    chatId (w w' : world svc) text :
  account_set_in_env cfg = false ->
  deployStarknetAccount_body cfg svc chatId w = (Returned text, w') ->
  exists OZcontractAddress e',
    wallet_deployAccount svc (storage svc w !! generated_key chatId) (ext svc w)
    = (Returned OZcontractAddress, e').
Proof.
  intros Hc Hr.
  destruct (wallet_deployAccount svc (storage svc w !! generated_key chatId) (ext svc w))
    as [[a|e] e'] eqn:Hd; [by eauto|].
  rewrite (deployStarknetAccountTool_propagates cfg svc chatId w e e' Hc Hd) in Hr.
  discriminate Hr.
Qed.

(** C3 (corrected).  When deploy-account succeeds for a session, with
    no account fixed in the environment, the key read from the
    session's "generatedAccountPrivateKey" slot is the one given to the
    wallet to deploy, and that key and the address the deployment
    returned are stored under the session's "privateKey" and
    "accountAddress".  The generated slot is not consumed: it is left
    as it was and still holds that key. *)
Theorem deploy_persists_generated_key (cfg : Config) (svc : Services)
    (input : option string) (chatId : string) (w w' : world svc) (text : string) :
  account_set_in_env cfg = false ->
  deployStarknetAccountTool cfg svc input chatId w = (Returned text, w') ->
  let privateKey := storage svc w !! generated_key chatId in
  exists OZcontractAddress e',
    wallet_deployAccount svc privateKey (ext svc w) = (Returned OZcontractAddress, e')
    /\ trace svc w' = trace svc w ++ [EvDeployAccount svc privateKey]
    /\ text = "Account deployed. Address: " +:+ OZcontractAddress
    /\ storage svc w' !! (chatId +:+ ":privateKey") = privateKey
    /\ storage svc w' !! (chatId +:+ ":accountAddress") = Some OZcontractAddress
    /\ storage svc w' !! (chatId +:+ ":generatedAccountPrivateKey") = privateKey.
Proof.
  intros Hc Hr privateKey.
  destruct input as [i|]; [|discriminate Hr].
  change (deployStarknetAccountTool cfg svc (Some i) chatId)
    with (deployStarknetAccount_body cfg svc chatId) in Hr.
  destruct (deployStarknetAccountTool_returned cfg svc chatId w w' text Hc Hr)
    as (a & e' & Hd).
  exists a, e'. split; [exact Hd|].
  rewrite (deployStarknetAccountTool_run cfg svc chatId w a e' Hc Hd) in Hr.
  injection Hr as <- <-. simpl.
  fold (privateKey_key chatId) (accountAddress_key chatId) (generated_key chatId).
  assert (forall store : gmap string string,
            <[accountAddress_key chatId := a]> store !! privateKey_key chatId
            = store !! privateKey_key chatId) as Hp.
  { intros store. apply lookup_insert_ne. intros H.
    by apply (privateKey_key_ne_accountAddress_key chatId). }
  assert (forall store : gmap string string,
            <[accountAddress_key chatId := a]> store !! generated_key chatId
            = store !! generated_key chatId) as Hg.
  { intros store. apply lookup_insert_ne. intros H.
    by apply (generated_key_ne_accountAddress_key chatId). }
  pose proof (generated_key_ne_privateKey_key chatId) as Hne.
  split; [done|]. split; [done|].
  split; [rewrite Hp; apply saved_lookup|].
  split; [apply lookup_insert_eq|].
  rewrite Hg. by apply saved_lookup_ne.
Qed.

Lemma deploy_persists_generated_key_witness :
  let w' :=
    (deployStarknetAccountTool Demo.per_session Demo.services (Some "") "42"
       Demo.generated).2 in
  exists OZcontractAddress e',
    wallet_deployAccount Demo.services (Some "key0") 1%nat = (Returned OZcontractAddress, e')
    /\ trace Demo.services w'
       = trace Demo.services Demo.generated ++ [EvDeployAccount Demo.services (Some "key0")]
    /\ "Account deployed. Address: 0xkey0" = "Account deployed. Address: " +:+ OZcontractAddress
    /\ storage Demo.services w' !! "42:privateKey" = Some "key0"
    /\ storage Demo.services w' !! "42:accountAddress" = Some OZcontractAddress
    /\ storage Demo.services w' !! "42:generatedAccountPrivateKey" = Some "key0".
Proof.
  apply (deploy_persists_generated_key Demo.per_session Demo.services (Some "") "42"
           Demo.generated _ "Account deployed. Address: 0xkey0");
    reflexivity.
Defined.

(** C3, as stated, fails: after a deploy-account that succeeded the
    generated slot has not been consumed, it still holds the key. *)
Lemma deploy_consumes_generated_key_counterexample :
  let deployed :=
    deployStarknetAccountTool Demo.per_session Demo.services (Some "") "42"
      Demo.generated in
  deployed.1 = Returned "Account deployed. Address: 0xkey0"
  /\ storage Demo.services deployed.2 !! "42:generatedAccountPrivateKey" = Some "key0"
  /\ ~ Spec.generated_slot_consumed (storage Demo.services deployed.2) "42".
Proof.
  split; [reflexivity|]. split; [reflexivity|].
  unfold Spec.generated_slot_consumed. intros H. vm_compute in H. discriminate H.
Qed.

(** C8.  When generate-account is called twice for a session and
    deploy-account after that, the second call's key replaces the first
    in the generated slot, and it is the second key that is deployed and
    stored; the wallet deriving the address from the key, the address
    deployed and stored is the one the second call announced. *)
Theorem second_generated_account_is_deployed (cfg : Config) (svc : Services)
    (input1 input2 input3 : string) (chatId : string) (w : world svc)
    (key1 address1 key2 address2 deployed : string) (e1 e2 e3 : Ext svc) :
  account_set_in_env cfg = false ->
  wallet_coherent svc ->
  wallet_generateAccount svc (ext svc w) = (Returned (key1, address1), e1) ->
  wallet_generateAccount svc e1 = (Returned (key2, address2), e2) ->
  wallet_deployAccount svc (Some key2) e2 = (Returned deployed, e3) ->
  let first := generateStarknetAccountTool cfg svc (Some input1) chatId w in
  let second := generateStarknetAccountTool cfg svc (Some input2) chatId first.2 in
  let deploy := deployStarknetAccountTool cfg svc (Some input3) chatId second.2 in
  first.1 = Returned (generated_text address1)
  /\ storage svc first.2 !! generated_key chatId = Some key1
  /\ second.1 = Returned (generated_text address2)
  /\ storage svc second.2 !! generated_key chatId = Some key2
  /\ deploy.1 = Returned ("Account deployed. Address: " +:+ address2)
  /\ trace svc deploy.2
     = trace svc w ++ [EvGenerateAccount svc; EvGenerateAccount svc;
                       EvDeployAccount svc (Some key2)]
  /\ storage svc deploy.2 !! privateKey_key chatId = Some key2
  /\ storage svc deploy.2 !! accountAddress_key chatId = Some address2.
Proof.
  intros Hc Hw Hg1 Hg2 Hd first second deploy.
  assert (deployed = address2) as -> by (eapply Hw; eassumption).
  subst first second deploy.
  change (generateStarknetAccountTool cfg svc (Some input1) chatId)
    with (generateStarknetAccount_body cfg svc chatId).
  change (generateStarknetAccountTool cfg svc (Some input2) chatId)
    with (generateStarknetAccount_body cfg svc chatId).
  change (deployStarknetAccountTool cfg svc (Some input3) chatId)
    with (deployStarknetAccount_body cfg svc chatId).
  rewrite (generateStarknetAccountTool_run cfg svc chatId w key1 address1 e1 Hc Hg1).
  cbn [fst snd].
  erewrite (generateStarknetAccountTool_run cfg svc chatId _ key2 address2 e2 Hc)
    by exact Hg2.
  cbn [fst snd storage].
  erewrite (deployStarknetAccountTool_run cfg svc chatId _ address2 e3 Hc); cycle 1.
  { cbn [storage ext]. rewrite !lookup_insert_eq. exact Hd. }
  cbn [fst snd storage trace]. rewrite !lookup_insert_eq. rewrite <- !app_assoc.
  repeat split.
  rewrite lookup_insert_ne
    by (intros H; by apply (privateKey_key_ne_accountAddress_key chatId)).
  apply lookup_insert_eq.
Qed.

Lemma second_generated_account_is_deployed_witness :
  let first :=
    generateStarknetAccountTool Demo.per_session Demo.services (Some "") "42" Demo.start in
  let second :=
    generateStarknetAccountTool Demo.per_session Demo.services (Some "") "42" first.2 in
  let deploy :=
    deployStarknetAccountTool Demo.per_session Demo.services (Some "") "42" second.2 in
  storage Demo.services second.2 !! "42:generatedAccountPrivateKey" = Some "key1"
  /\ deploy.1 = Returned "Account deployed. Address: 0xkey1"
  /\ storage Demo.services deploy.2 !! "42:privateKey" = Some "key1"
  /\ storage Demo.services deploy.2 !! "42:accountAddress" = Some "0xkey1".
Proof.
  assert (wallet_coherent Demo.services) as Hw.
  { intros e key address e' f deployed f' Hg Hd.
    injection Hg as <- <- _. injection Hd as <-. reflexivity. }
  destruct (second_generated_account_is_deployed Demo.per_session Demo.services
              "" "" "" "42" Demo.start "key0" "0xkey0" "key1" "0xkey1" "0xkey1" 1%nat 2%nat 2%nat
              eq_refl Hw eq_refl eq_refl eq_refl)
    as (_ & _ & _ & H2 & H3 & _ & H4 & H5).
  repeat split; assumption.
Defined.

(** ** Background actions *)

Section Timers.
Context (cfg : Config) (svc : Services).

(** start-background-action, run. *)
Lemma startBackgroundAction_run whatToDo intervalInSeconds chatId (w : world svc) :
  startBackgroundAction svc whatToDo intervalInSeconds chatId w
  = (Returned "Started.",
     {| ext := ext svc w;
        storage := storage svc w;
        backgroundActionIntervals :=
          <[chatId := Some (next_handle svc w)]>
            match default None (backgroundActionIntervals svc w !! chatId) with
            | Some _ => <[chatId := None]> (backgroundActionIntervals svc w)
            | None => backgroundActionIntervals svc w
            end;
        intervals :=
          <[next_handle svc w :=
              {| session := chatId; whatToDo := whatToDo;
                 delay := mul intervalInSeconds n1000 |}]>
            match default None (backgroundActionIntervals svc w !! chatId) with
            | Some handle => delete handle (intervals svc w)
            | None => intervals svc w
            end;
        next_handle := S (next_handle svc w);
        trace := trace svc w |}).
Proof.
  unfold startBackgroundAction, get_backgroundActionInterval, clearInterval,
    set_backgroundActionInterval, setInterval.
  unfold mbind, M_bind, bind, mret, M_ret, ret. simpl.
  destruct (default None (backgroundActionIntervals svc w !! chatId)); reflexivity.
Qed.

(** stop-background-action, run. *)
Lemma stopBackgroundAction_run chatId (w : world svc) :
  stopBackgroundAction_body svc chatId w
  = (Returned "Stopped.",
     match default None (backgroundActionIntervals svc w !! chatId) with
     | Some handle =>
         {| ext := ext svc w;
            storage := storage svc w;
            backgroundActionIntervals := <[chatId := None]> (backgroundActionIntervals svc w);
            intervals := delete handle (intervals svc w);
            next_handle := next_handle svc w;
            trace := trace svc w |}
     | None => w
     end).
Proof.
  unfold stopBackgroundAction_body, get_backgroundActionInterval, clearInterval,
    set_backgroundActionInterval.
  unfold mbind, M_bind, bind, mret, M_ret, ret. simpl.
  destruct (default None (backgroundActionIntervals svc w !! chatId));
    [reflexivity | by destruct w].
Qed.

(** The entry of a session is a handle exactly when the map binds the
    session to one. *)
Lemma entry_handle (b : gmap string (option nat)) chatId h :
  default None (b !! chatId) = Some h <-> b !! chatId = Some (Some h).
Proof. destruct (b !! chatId) as [[h'|]|]; simpl; split; congruence. Qed.

Lemma timers_wf_initial e store : timers_wf svc (initial svc e store).
Proof. split; simpl; intros *; rewrite lookup_empty; discriminate. Qed.

Lemma timers_wf_start whatToDo intervalInSeconds chatId (w : world svc) :
  timers_wf svc w ->
  timers_wf svc (startBackgroundAction svc whatToDo intervalInSeconds chatId w).2.
Proof.
  intros [Hrec Hlive Hfresh]. rewrite startBackgroundAction_run. simpl.
  set (n := next_handle svc w).
  destruct (default None (backgroundActionIntervals svc w !! chatId)) as [h0|] eqn:Hcur.
  - apply entry_handle in Hcur.
    split; simpl.
    + intros h i Hi. apply lookup_insert_Some in Hi as [[<- <-]|[Hn Hi]].
      * simpl. apply lookup_insert_eq.
      * apply lookup_delete_Some in Hi as [Hh Hi].
        pose proof (Hrec h i Hi) as Hs.
        assert (session i <> chatId) by (intros E; rewrite E in Hs; congruence).
        by rewrite !lookup_insert_ne.
    + intros c h Hc. apply lookup_insert_Some in Hc as [[<- E]|[Hn Hc]].
      * injection E as <-. eexists. by rewrite lookup_insert_eq.
      * rewrite lookup_insert_ne in Hc by done.
        destruct (Hlive c h Hc) as (i & Hi & Hs).
        exists i. split; [|done].
        rewrite lookup_insert_ne by (apply Hfresh in Hi; unfold n; lia).
        rewrite lookup_delete_ne; [done|].
        intros <-. destruct (Hlive chatId h0 Hcur) as (i0 & Hi0 & Hs0). congruence.
    + intros h i Hi. apply lookup_insert_Some in Hi as [[<- _]|[_ Hi]]; [unfold n; lia|].
      apply lookup_delete_Some in Hi as [_ Hi]. apply Hfresh in Hi. lia.
  - assert (forall h, backgroundActionIntervals svc w !! chatId <> Some (Some h)) as Hno.
    { intros h E. apply entry_handle in E. congruence. }
    split; simpl.
    + intros h i Hi. apply lookup_insert_Some in Hi as [[<- <-]|[Hn Hi]].
      * simpl. apply lookup_insert_eq.
      * pose proof (Hrec h i Hi) as Hs.
        assert (session i <> chatId) by (intros E; rewrite E in Hs; by apply Hno in Hs).
        by rewrite lookup_insert_ne.
    + intros c h Hc. apply lookup_insert_Some in Hc as [[<- E]|[Hn Hc]].
      * injection E as <-. eexists. by rewrite lookup_insert_eq.
      * destruct (Hlive c h Hc) as (i & Hi & Hs).
        exists i. split; [|done].
        rewrite lookup_insert_ne by (apply Hfresh in Hi; unfold n; lia). done.
    + intros h i Hi. apply lookup_insert_Some in Hi as [[<- _]|[_ Hi]]; [unfold n; lia|].
      apply Hfresh in Hi. lia.
Qed.

Lemma timers_wf_stop chatId (w : world svc) :
  timers_wf svc w -> timers_wf svc (stopBackgroundAction_body svc chatId w).2.
Proof.
  intros Hwf. rewrite stopBackgroundAction_run. simpl.
  destruct (default None (backgroundActionIntervals svc w !! chatId)) as [h0|] eqn:Hcur;
    [|done].
  destruct Hwf as [Hrec Hlive Hfresh].
  apply entry_handle in Hcur.
  split; simpl.
  - intros h i Hi. apply lookup_delete_Some in Hi as [Hh Hi].
    pose proof (Hrec h i Hi) as Hs.
    assert (session i <> chatId) by (intros E; rewrite E in Hs; congruence).
    by rewrite lookup_insert_ne.
  - intros c h Hc. apply lookup_insert_Some in Hc as [[_ E]|[Hn Hc]]; [discriminate E|].
    destruct (Hlive c h Hc) as (i & Hi & Hs).
    exists i. split; [|done].
    rewrite lookup_delete_ne; [done|].
    intros <-. destruct (Hlive chatId h0 Hcur) as (i0 & Hi0 & Hs0). congruence.
  - intros h i Hi. apply lookup_delete_Some in Hi as [_ Hi]. by apply Hfresh in Hi.
Qed.

End Timers.

(** ** Tools that leave the timers alone *)

Section Frame.
Context (cfg : Config) (svc : Services).

Lemma same_timers_refl (w : world svc) : same_timers svc w w.
Proof. by repeat split. Qed.

Lemma same_timers_trans (w1 w2 w3 : world svc) :
  same_timers svc w1 w2 -> same_timers svc w2 w3 -> same_timers svc w1 w3.
Proof. intros (?&?&?) (?&?&?). repeat split; congruence. Qed.

Lemma keeps_ret {A} (a : A) : keeps_timers svc (mret a).
Proof. intros w. apply same_timers_refl. Qed.

Lemma keeps_throw {A} e : keeps_timers svc (throw svc (A := A) e).
Proof. intros w. apply same_timers_refl. Qed.

Lemma keeps_lift {A} (o : outcome A) : keeps_timers svc (lift svc o).
Proof. intros w. apply same_timers_refl. Qed.

Lemma keeps_bind {A B} (m : M svc A) (k : A -> M svc B) :
  keeps_timers svc m -> (forall a, keeps_timers svc (k a)) -> keeps_timers svc (m ≫= k).
Proof.
  intros Hm Hk w. specialize (Hm w). unfold mbind, M_bind, bind.
  destruct (m w) as [[a|e] w1]; simpl in *; [|done].
  eapply same_timers_trans; [exact Hm | apply Hk].
Qed.

Lemma keeps_try_catch {A} (body : M svc A) handler :
  keeps_timers svc body -> (forall e, keeps_timers svc (handler e)) ->
  keeps_timers svc (try_catch svc body handler).
Proof.
  intros Hm Hk w. specialize (Hm w). unfold try_catch.
  destruct (body w) as [[a|e] w1]; simpl in *; [done|].
  eapply same_timers_trans; [exact Hm | apply Hk].
Qed.

Lemma keeps_call {A} ev (f : Ext svc -> outcome A * Ext svc) :
  keeps_timers svc (call svc ev f).
Proof. intros w. unfold call. simpl. by destruct (f (ext svc w)). Qed.

Lemma keeps_getAccount chatId : keeps_timers svc (getAccount svc chatId).
Proof. intros w. unfold getAccount. apply keeps_call. Qed.

Lemma keeps_log ev : keeps_timers svc (log svc ev).
Proof. intros w. by repeat split. Qed.

Lemma keeps_readFromStorage key : keeps_timers svc (readFromStorage svc key).
Proof. intros w. apply same_timers_refl. Qed.

Lemma keeps_saveToStorage key value : keeps_timers svc (saveToStorage svc key value).
Proof. intros w. by repeat split. Qed.

Ltac keeps :=
  repeat first
    [ apply keeps_ret | apply keeps_throw | apply keeps_lift | apply keeps_call
    | apply keeps_getAccount | apply keeps_log | apply keeps_readFromStorage
    | apply keeps_saveToStorage
    | apply keeps_try_catch | apply keeps_bind
    | match goal with
      | |- forall _, keeps_timers _ _ => intros ?
      | |- keeps_timers _ (match ?x with _ => _ end) => destruct x
      end ].

Lemma keeps_sendEthTool recipientAddress amountInEth chatId :
  keeps_timers svc (sendEthTool svc recipientAddress amountInEth chatId).
Proof. unfold sendEthTool, execute. keeps. Qed.

Lemma keeps_swapTool tokenIn tokenOut amountIn chatId :
  keeps_timers svc (swapTool cfg svc tokenIn tokenOut amountIn chatId).
Proof. unfold swapTool, getQuote, executeSwap, console_error. keeps. Qed.

Lemma keeps_getCurrentAccountTool chatId :
  keeps_timers svc (getCurrentAccount_body svc chatId).
Proof. unfold getCurrentAccount_body. keeps. Qed.

Lemma keeps_generateStarknetAccountTool chatId :
  keeps_timers svc (generateStarknetAccount_body cfg svc chatId).
Proof. unfold generateStarknetAccount_body, generateAccount. keeps. Qed.

Lemma keeps_deployStarknetAccountTool chatId :
  keeps_timers svc (deployStarknetAccount_body cfg svc chatId).
Proof. unfold deployStarknetAccount_body, deployAccount. keeps. Qed.

Lemma keeps_getNewsTool : keeps_timers svc (getNewsTool svc).
Proof. unfold getNewsTool, getNews. keeps. Qed.

Lemma timers_wf_same (w w' : world svc) :
  same_timers svc w w' -> timers_wf svc w -> timers_wf svc w'.
Proof.
  intros (Hb & Hi & Hn) [Hrec Hlive Hfresh].
  split; rewrite ?Hb, ?Hi, ?Hn; assumption.
Qed.

(** Every tool keeps the timers well formed. *)
Lemma timers_wf_invoke_tool i chatId (w : world svc) :
  timers_wf svc w -> timers_wf svc (invoke_tool cfg svc i chatId w).2.
Proof.
  intros Hwf. destruct i as [| |[]| |[]|[]|[]|]; simpl; try done.
  - eapply timers_wf_same; [apply keeps_sendEthTool | done].
  - by apply timers_wf_start.
  - by apply timers_wf_stop.
  - eapply timers_wf_same; [apply keeps_getNewsTool | done].
  - eapply timers_wf_same; [apply keeps_getCurrentAccountTool | done].
  - eapply timers_wf_same; [apply keeps_generateStarknetAccountTool | done].
  - eapply timers_wf_same; [apply keeps_deployStarknetAccountTool | done].
  - eapply timers_wf_same; [apply keeps_swapTool | done].
Qed.

Lemma reachable_timers_wf (w : world svc) : reachable cfg svc w -> timers_wf svc w.
Proof.
  induction 1 as [e store | w i chatId _ IH].
  - apply timers_wf_initial.
  - by apply timers_wf_invoke_tool.
Qed.

End Frame.

(** ** One timer per session *)

Section OneTimer.
Context (cfg : Config) (svc : Services).

(** The timer recorded for a session is its only live timer. *)
Lemma active_timers_recorded chatId h (w : world svc) :
  timers_wf svc w ->
  backgroundActionIntervals svc w !! chatId = Some (Some h) ->
  exists i, intervals svc w !! h = Some i /\ active_timers svc chatId w = {[ h := i ]}.
Proof.
  intros [Hrec Hlive _] Hc.
  destruct (Hlive chatId h Hc) as (i & Hi & Hs).
  exists i. split; [done|].
  apply map_eq. intros k. unfold active_timers.
  destruct (decide (k = h)) as [->|Hk].
  - rewrite lookup_singleton_eq. by apply map_lookup_filter_Some_2.
  - rewrite lookup_singleton_ne by done.
    apply map_lookup_filter_None_2. right. intros x Hx Hsx. simpl in Hsx.
    apply Hrec in Hx. rewrite Hsx in Hx. congruence.
Qed.

(** A session without a recorded handle has no live timer. *)
Lemma active_timers_none chatId (w : world svc) :
  timers_wf svc w ->
  default None (backgroundActionIntervals svc w !! chatId) = None ->
  active_timers svc chatId w = ∅.
Proof.
  intros [Hrec _ _] Hc. apply map_empty. intros k. unfold active_timers.
  apply map_lookup_filter_None_2. right. intros x Hx Hsx. simpl in Hsx.
  apply Hrec in Hx. rewrite Hsx in Hx. by rewrite Hx in Hc.
Qed.

Lemma active_timers_at_most_one chatId (w : world svc) :
  timers_wf svc w -> (size (active_timers svc chatId w) <= 1)%nat.
Proof.
  intros Hwf.
  destruct (default None (backgroundActionIntervals svc w !! chatId)) as [h|] eqn:Hc.
  - apply entry_handle in Hc.
    destruct (active_timers_recorded chatId h w Hwf Hc) as (i & _ & ->).
    by rewrite map_size_singleton.
  - rewrite (active_timers_none chatId w Hwf Hc), map_size_empty. lia.
Qed.

(** C4.  In every state the process reaches, a session has at most one
    live timer.  [start] cancels the timer recorded for the session, if
    there is one, and never fails; after two [start]s in a row the
    session has exactly one live timer, the second one, which is the
    one recorded for the session, and the first is no longer live. *)
Theorem one_timer_per_session (w : world svc) (chatId : string)
    (whatToDo1 whatToDo2 : string) (seconds1 seconds2 : number) :
  reachable cfg svc w ->
  let first := startBackgroundAction svc whatToDo1 seconds1 chatId w in
  let second := startBackgroundAction svc whatToDo2 seconds2 chatId first.2 in
  (forall c, (size (active_timers svc c w) <= 1)%nat)
  /\ first.1 = Returned "Started."
  /\ second.1 = Returned "Started."
  /\ size (active_timers svc chatId second.2) = 1%nat
  /\ (exists h1 h2,
        h1 <> h2
        /\ backgroundActionIntervals svc first.2 !! chatId = Some (Some h1)
        /\ backgroundActionIntervals svc second.2 !! chatId = Some (Some h2)
        /\ intervals svc second.2 !! h1 = None
        /\ active_timers svc chatId second.2
           = {[ h2 := {| session := chatId; whatToDo := whatToDo2;
                         delay := mul seconds2 n1000 |} ]})
  /\ (forall c, (size (active_timers svc c second.2) <= 1)%nat).
Proof.
  intros Hreach first second.
  pose proof (reachable_timers_wf cfg svc w Hreach) as Hwf.
  pose proof (timers_wf_start svc whatToDo1 seconds1 chatId w Hwf) as Hwf1.
  fold first in Hwf1.
  pose proof (timers_wf_start svc whatToDo2 seconds2 chatId first.2 Hwf1) as Hwf2.
  fold second in Hwf2.
  assert (backgroundActionIntervals svc first.2 !! chatId
          = Some (Some (next_handle svc w))) as Hb1.
  { subst first. rewrite startBackgroundAction_run. simpl. apply lookup_insert_eq. }
  assert (next_handle svc first.2 = S (next_handle svc w)) as Hn1.
  { subst first. by rewrite startBackgroundAction_run. }
  assert (second
          = (Returned "Started.",
             {| ext := ext svc first.2;
                storage := storage svc first.2;
                backgroundActionIntervals :=
                  <[chatId := Some (S (next_handle svc w))]>
                    (<[chatId := None]> (backgroundActionIntervals svc first.2));
                intervals :=
                  <[S (next_handle svc w) :=
                      {| session := chatId; whatToDo := whatToDo2;
                         delay := mul seconds2 n1000 |}]>
                    (delete (next_handle svc w) (intervals svc first.2));
                next_handle := S (S (next_handle svc w));
                trace := trace svc first.2 |})) as Hsecond.
  { subst second. rewrite startBackgroundAction_run, Hb1, Hn1. reflexivity. }
  assert (backgroundActionIntervals svc second.2 !! chatId
          = Some (Some (S (next_handle svc w)))) as Hb2.
  { rewrite Hsecond. simpl. apply lookup_insert_eq. }
  destruct (active_timers_recorded chatId _ second.2 Hwf2 Hb2) as (i & Hi & Hact).
  assert (i = {| session := chatId; whatToDo := whatToDo2;
                 delay := mul seconds2 n1000 |}) as ->.
  { rewrite Hsecond in Hi. simpl in Hi. rewrite lookup_insert_eq in Hi. congruence. }
  split; [intros c; by apply active_timers_at_most_one|].
  split; [subst first; by rewrite startBackgroundAction_run|].
  split; [by rewrite Hsecond|].
  split; [by rewrite Hact, map_size_singleton|].
  split; [|intros c; by apply active_timers_at_most_one].
  exists (next_handle svc w), (S (next_handle svc w)).
  split; [lia|]. split; [exact Hb1|]. split; [exact Hb2|]. split; [|exact Hact].
  rewrite Hsecond. simpl.
  rewrite lookup_insert_ne by lia. apply lookup_delete_eq.
Qed.

(** The body of [stop] always returns its confirmation.  For a session
    with no live timer it changes nothing; for a session with one it
    cancels the timer and clears the session's entry, leaving the
    session with no live timer; run again it changes nothing more. *)
Lemma stopBackgroundAction_body_idempotent (chatId : string) (w : world svc) :
  let stopped := stopBackgroundAction_body svc chatId w in
  stopped.1 = Returned "Stopped."
  /\ (default None (backgroundActionIntervals svc w !! chatId) = None -> stopped.2 = w)
  /\ (timers_wf svc w -> active_timers svc chatId w = ∅ -> stopped.2 = w)
  /\ (forall h,
        backgroundActionIntervals svc w !! chatId = Some (Some h) ->
        intervals svc stopped.2 = delete h (intervals svc w)
        /\ backgroundActionIntervals svc stopped.2
           = <[chatId := None]> (backgroundActionIntervals svc w)
        /\ ext svc stopped.2 = ext svc w
        /\ storage svc stopped.2 = storage svc w
        /\ trace svc stopped.2 = trace svc w)
  /\ (timers_wf svc w -> active_timers svc chatId stopped.2 = ∅)
  /\ stopBackgroundAction_body svc chatId stopped.2 = (Returned "Stopped.", stopped.2).
Proof.
  intros stopped. subst stopped. rewrite stopBackgroundAction_run. cbn [fst snd].
  split; [reflexivity|].
  split; [by intros ->|].
  split.
  { intros Hwf Hnone.
    destruct (default None (backgroundActionIntervals svc w !! chatId)) as [h|] eqn:Hc;
      [|reflexivity].
    apply entry_handle in Hc.
    destruct (active_timers_recorded chatId h w Hwf Hc) as (i & _ & Hact).
    rewrite Hact in Hnone. apply (f_equal (fun m => m !! h)) in Hnone.
    rewrite lookup_singleton_eq, lookup_empty in Hnone. discriminate Hnone. }
  split.
  { intros h Hc. apply entry_handle in Hc. rewrite Hc. by repeat split. }
  split.
  { intros Hwf.
    pose proof (timers_wf_stop svc chatId w Hwf) as Hwf'.
    rewrite stopBackgroundAction_run in Hwf'. cbn [snd] in Hwf'.
    apply active_timers_none; [exact Hwf'|].
    destruct (default None (backgroundActionIntervals svc w !! chatId)) as [h|] eqn:Hc;
      [|exact Hc].
    simpl. by rewrite lookup_insert_eq. }
  rewrite stopBackgroundAction_run.
  destruct (default None (backgroundActionIntervals svc w !! chatId)) as [h|] eqn:Hc.
  - simpl. by rewrite lookup_insert_eq.
  - by rewrite Hc.
Qed.

End OneTimer.

Lemma one_timer_per_session_witness :
  let first := startBackgroundAction Demo.services "get the news" n1000 "42" Demo.start in
  let second := startBackgroundAction Demo.services "check my balance" n1000 "42" first.2 in
  second.1 = Returned "Started."
  /\ size (active_timers Demo.services "42" second.2) = 1%nat.
Proof.
  destruct (one_timer_per_session Demo.per_session Demo.services Demo.start "42"
              "get the news" "check my balance" n1000 n1000
              (reachable_initial Demo.per_session Demo.services 0%nat ∅))
    as (_ & _ & H2 & H3 & _).
  split; assumption.
Defined.

(** C9 (the code breaks it).  For a tool call that carries an input,
    stop returns its confirmation, changes nothing for a session with
    no live timer, cancels and clears the timer of a session that has
    one, and changes nothing more when called again.  For a call
    without input the binding of the handler's first parameter [{}]
    throws: an error instead of the confirmation, and the timer is not
    cancelled. *)
Theorem stopBackgroundAction_needs_input (svc : Services) (input : option string)
    (chatId : string) (w : world svc) :
  let stopped := stopBackgroundAction svc input chatId w in
  match input with
  | None =>
      stopped
      = (Threw (ErrorObject "Cannot destructure 'undefined' as it is undefined."), w)
  | Some _ =>
      stopped.1 = Returned "Stopped."
      /\ (default None (backgroundActionIntervals svc w !! chatId) = None -> stopped.2 = w)
      /\ (timers_wf svc w -> active_timers svc chatId w = ∅ -> stopped.2 = w)
      /\ (forall h,
            backgroundActionIntervals svc w !! chatId = Some (Some h) ->
            intervals svc stopped.2 = delete h (intervals svc w)
            /\ backgroundActionIntervals svc stopped.2
               = <[chatId := None]> (backgroundActionIntervals svc w)
            /\ ext svc stopped.2 = ext svc w
            /\ storage svc stopped.2 = storage svc w
            /\ trace svc stopped.2 = trace svc w)
      /\ (timers_wf svc w -> active_timers svc chatId stopped.2 = ∅)
      /\ stopBackgroundAction svc input chatId stopped.2 = (Returned "Stopped.", stopped.2)
  end.
Proof.
  intros stopped. subst stopped. destruct input as [i|]; [|reflexivity].
  exact (stopBackgroundAction_body_idempotent svc chatId w).
Qed.

Lemma stopBackgroundAction_needs_input_witness :
  stopBackgroundAction Demo.services None "42" Demo.watching
  = (Threw (ErrorObject "Cannot destructure 'undefined' as it is undefined."),
     Demo.watching)
  /\ (stopBackgroundAction Demo.services (Some "") "42" Demo.watching).1
     = Returned "Stopped.".
Proof.
  pose proof (stopBackgroundAction_needs_input Demo.services None "42" Demo.watching) as H0.
  destruct (stopBackgroundAction_needs_input Demo.services (Some "") "42" Demo.watching)
    as (H1 & _).
  exact (conj H0 H1).
Defined.

(* ================================================================== *)
(** * Further properties of the tools *)

Import Frames Dialogue.

(** ** Store keys *)

Lemma append_cons (c : ascii) (s t : string) : String c s +:+ t = String c (s +:+ t).
Proof. reflexivity. Qed.

Lemma append_length (s t : string) :
  String.length (s +:+ t) = (String.length s + String.length t)%nat.
Proof. induction s as [|c s IH]; [done|]. rewrite append_cons. simpl. by rewrite IH. Qed.

Lemma append_assoc (s t u : string) : (s +:+ t) +:+ u = s +:+ (t +:+ u).
Proof. induction s as [|c s IH]; [done|]. rewrite !append_cons. by f_equal. Qed.

(** Equal strings with suffixes of one length have equal suffixes. *)
Lemma append_suffix_inj (s t a b : string) :
  String.length a = String.length b -> s +:+ a = t +:+ b -> s = t /\ a = b.
Proof.
  revert t. induction s as [|c s IH]; intros [|d t] Hl H.
  - done.
  - change (a = String d (t +:+ b)) in H.
    apply (f_equal String.length) in H. simpl in H. rewrite append_length in H. lia.
  - change (String c (s +:+ a) = b) in H.
    apply (f_equal String.length) in H. simpl in H. rewrite append_length in H. lia.
  - rewrite !append_cons in H. injection H as -> H. destruct (IH t Hl H) as [-> ->]. done.
Qed.

(** Strings that end differently are different. *)
Lemma append_suffix_clash (s t a1 a2 b : string) :
  String.length a2 = String.length b -> a2 <> b -> s +:+ (a1 +:+ a2) <> t +:+ b.
Proof.
  intros Hl Hne H. rewrite <- append_assoc in H.
  by destruct (append_suffix_inj _ _ _ _ Hl H) as [_ ?].
Qed.

(** A store key is a slot of one session only. *)
Lemma slot_of_one_session (chatId other key : string) :
  slot_of chatId key -> slot_of other key -> chatId = other.
Proof.
  unfold slot_of, generated_key, privateKey_key, accountAddress_key.
  pose proof (fun s t => append_suffix_clash s t ":generatedAccoun" "tPrivateKey"
                           ":privateKey" eq_refl ltac:(discriminate)) as GP.
  pose proof (fun s t => append_suffix_clash s t ":generatedAc" "countPrivateKey"
                           ":accountAddress" eq_refl ltac:(discriminate)) as GA.
  pose proof (fun s t => append_suffix_clash s t ":acc" "ountAddress"
                           ":privateKey" eq_refl ltac:(discriminate)) as AP.
  intros [-> | [-> | ->]] [H | [H | H]];
    first
      [ by destruct (append_suffix_inj chatId other _ _ eq_refl H)
      | by apply GP in H | symmetry in H; by apply GP in H
      | by apply GA in H | symmetry in H; by apply GA in H
      | by apply AP in H | symmetry in H; by apply AP in H ].
Qed.

(** ** What the tools write to the store *)

Section StoreFrame.
Context (cfg : Config) (svc : Services).

Lemma ww_weaken (P Q : string -> Prop) {A} (m : M svc A) :
  (forall key, P key -> Q key) -> writes_within P m -> writes_within Q m.
Proof. intros HPQ Hm w key Hk. apply Hm. intros HP. by apply Hk, HPQ. Qed.

Lemma ww_ret P {A} (a : A) : writes_within (svc := svc) P (mret a).
Proof. by intros w key _. Qed.

Lemma ww_throw P {A} e : writes_within P (throw svc (A := A) e).
Proof. by intros w key _. Qed.

Lemma ww_lift P {A} (o : outcome A) : writes_within P (lift svc o).
Proof. by intros w key _. Qed.

Lemma ww_call P {A} ev (f : Ext svc -> outcome A * Ext svc) :
  writes_within P (call svc ev f).
Proof. intros w key _. unfold call. simpl. by destruct (f (ext svc w)). Qed.

Lemma ww_getAccount P chatId : writes_within P (getAccount svc chatId).
Proof. intros w. unfold getAccount. apply ww_call. Qed.

Lemma ww_log P ev : writes_within P (log svc ev).
Proof. by intros w key _. Qed.

Lemma ww_readFromStorage P key : writes_within P (readFromStorage svc key).
Proof. by intros w k _. Qed.

Lemma ww_saveToStorage (P : string -> Prop) key value :
  P key -> writes_within P (saveToStorage svc key value).
Proof.
  intros HP w k Hk. unfold saveToStorage. simpl.
  apply saved_lookup_ne. by intros ->.
Qed.

Lemma ww_setInterval P callback : writes_within P (setInterval svc callback).
Proof. by intros w key _. Qed.

Lemma ww_clearInterval P handle : writes_within P (clearInterval svc handle).
Proof. by intros w key _. Qed.

Lemma ww_get_entry P chatId : writes_within P (get_backgroundActionInterval svc chatId).
Proof. by intros w key _. Qed.

Lemma ww_set_entry P chatId v : writes_within P (set_backgroundActionInterval svc chatId v).
Proof. by intros w key _. Qed.

Lemma ww_bind P {A B} (m : M svc A) (k : A -> M svc B) :
  writes_within P m -> (forall a, writes_within P (k a)) -> writes_within P (m ≫= k).
Proof.
  intros Hm Hk w key Hkey. specialize (Hm w key Hkey). unfold mbind, M_bind, bind.
  destruct (m w) as [[a|e] w1]; simpl in *; [|done].
  by rewrite (Hk a w1 key Hkey).
Qed.

Lemma ww_try_catch P {A} (body : M svc A) handler :
  writes_within P body -> (forall e, writes_within P (handler e)) ->
  writes_within P (try_catch svc body handler).
Proof.
  intros Hm Hk w key Hkey. specialize (Hm w key Hkey). unfold try_catch.
  destruct (body w) as [[a|e] w1]; simpl in *; [done|].
  by rewrite (Hk e w1 key Hkey).
Qed.

Ltac frames :=
  repeat first
    [ apply ww_ret | apply ww_throw | apply ww_lift | apply ww_call
    | apply ww_getAccount | apply ww_log | apply ww_readFromStorage
    | apply ww_setInterval | apply ww_clearInterval | apply ww_get_entry
    | apply ww_set_entry
    | apply ww_try_catch | apply ww_bind
    | match goal with
      | |- forall _, writes_within _ _ => intros ?
      | |- writes_within _ (match ?x with _ => _ end) => destruct x
      end ].

Lemma ww_sendEthTool recipientAddress amountInEth chatId :
  writes_within nothing (sendEthTool svc recipientAddress amountInEth chatId).
Proof. unfold sendEthTool, execute. frames. Qed.

Lemma ww_swapTool tokenIn tokenOut amountIn chatId :
  writes_within nothing (swapTool cfg svc tokenIn tokenOut amountIn chatId).
Proof. unfold swapTool, getQuote, executeSwap, console_error. frames. Qed.

Lemma ww_getCurrentAccountTool chatId :
  writes_within nothing (getCurrentAccount_body svc chatId).
Proof. unfold getCurrentAccount_body. frames. Qed.

Lemma ww_getNewsTool : writes_within nothing (getNewsTool svc).
Proof. unfold getNewsTool, getNews. frames. Qed.

Lemma ww_startBackgroundAction whatToDo seconds chatId :
  writes_within nothing (startBackgroundAction svc whatToDo seconds chatId).
Proof. unfold startBackgroundAction. frames. Qed.

Lemma ww_stopBackgroundAction chatId :
  writes_within nothing (stopBackgroundAction_body svc chatId).
Proof. unfold stopBackgroundAction_body. frames. Qed.

Lemma ww_generateStarknetAccountTool chatId :
  writes_within (eq (generated_key chatId)) (generateStarknetAccount_body cfg svc chatId).
Proof.
  unfold generateStarknetAccount_body, generateAccount.
  destruct (account_set_in_env cfg); frames.
  by apply ww_saveToStorage.
Qed.

Lemma ww_deployStarknetAccountTool chatId :
  writes_within (fun key => key = privateKey_key chatId \/ key = accountAddress_key chatId)
    (deployStarknetAccount_body cfg svc chatId).
Proof.
  unfold deployStarknetAccount_body, deployAccount.
  destruct (account_set_in_env cfg); frames.
  - apply ww_saveToStorage. by left.
  - apply ww_saveToStorage. by right.
Qed.

Lemma ww_nothing {A} (m : M svc A) :
  writes_within nothing m -> keeps_storage m.
Proof. intros Hm w. apply map_eq. intros key. apply Hm. by intros []. Qed.

Lemma ww_invoke_tool i chatId :
  writes_within (slot_of chatId) (invoke_tool cfg svc i chatId).
Proof.
  destruct i as [| |[]| |[]|[]|[]|]; simpl; try (by intros w key _).
  - eapply ww_weaken; [|apply ww_sendEthTool]. by intros ? [].
  - eapply ww_weaken; [|apply ww_startBackgroundAction]. by intros ? [].
  - eapply ww_weaken; [|apply ww_stopBackgroundAction]. by intros ? [].
  - eapply ww_weaken; [|apply ww_getNewsTool]. by intros ? [].
  - eapply ww_weaken; [|apply ww_getCurrentAccountTool]. by intros ? [].
  - eapply ww_weaken; [|apply ww_generateStarknetAccountTool].
    intros ? <-. by left.
  - eapply ww_weaken; [|apply ww_deployStarknetAccountTool].
    intros ? [-> | ->]; [right; by left | right; by right].
  - eapply ww_weaken; [|apply ww_swapTool]. by intros ? [].
Qed.

End StoreFrame.

(** ** Credentials: who writes what *)

(** X1.  A tool run for one session leaves the three store slots of
    every other session as they were. *)
Theorem tools_write_own_session_only (cfg : Config) (svc : Services)
    (i : invocation) (chatId other : string) (w : world svc) :
  chatId <> other ->
  let w' := (invoke_tool cfg svc i chatId w).2 in
  storage svc w' !! (other +:+ ":generatedAccountPrivateKey")
  = storage svc w !! (other +:+ ":generatedAccountPrivateKey")
  /\ storage svc w' !! (other +:+ ":privateKey") = storage svc w !! (other +:+ ":privateKey")
  /\ storage svc w' !! (other +:+ ":accountAddress")
     = storage svc w !! (other +:+ ":accountAddress").
Proof.
  intros Hne w'. subst w'.
  assert (forall key, slot_of other key ->
            storage svc (invoke_tool cfg svc i chatId w).2 !! key = storage svc w !! key) as H.
  { intros key Hk. apply ww_invoke_tool. intros Hc.
    apply Hne. by apply (slot_of_one_session chatId other key). }
  repeat split; apply H; unfold slot_of; [by left | right; by left | right; by right].
Qed.

Lemma tools_write_own_session_only_witness :
  let w' := (invoke_tool Demo.per_session Demo.services
               (generate_starknet_account (Some "")) "7" Demo.generated).2 in
  storage Demo.services w' !! "42:generatedAccountPrivateKey" = Some "key0".
Proof.
  intros w'.
  destruct (tools_write_own_session_only Demo.per_session Demo.services
              (generate_starknet_account (Some "")) "7" "42" Demo.generated
              ltac:(discriminate))
    as (H & _).
  exact H.
Defined.

(** X2.  Only generate-account and deploy-account write the store: every
    other tool leaves it exactly as it was, whatever its collaborators
    do. *)
Theorem only_account_tools_write_store (cfg : Config) (svc : Services)
    (i : invocation) (chatId : string) (w : world svc) :
  (forall input, i <> generate_starknet_account input) ->
  (forall input, i <> deploy_starknet_account input) ->
  storage svc (invoke_tool cfg svc i chatId w).2 = storage svc w.
Proof.
  intros Hg Hd. destruct i as [| |[]| |[]|input|input|]; simpl; try done.
  - apply ww_nothing, ww_sendEthTool.
  - apply ww_nothing, ww_startBackgroundAction.
  - apply ww_nothing, ww_stopBackgroundAction.
  - apply ww_nothing, ww_getNewsTool.
  - apply ww_nothing, ww_getCurrentAccountTool.
  - by destruct (Hg input).
  - by destruct (Hd input).
  - apply ww_nothing, ww_swapTool.
Qed.

Lemma only_account_tools_write_store_witness :
  storage Demo.services
    (invoke_tool Demo.per_session Demo.services (swap "eth" "strk" "3") "42" Demo.funded).2
  = storage Demo.services Demo.funded.
Proof.
  apply (only_account_tools_write_store Demo.per_session Demo.services
           (swap "eth" "strk" "3") "42" Demo.funded); discriminate.
Defined.

(** X3.  Only start-background-action and stop-background-action touch
    the timers: every other tool leaves the live timers, the map of
    handles and the next handle as they were. *)
Theorem only_background_tools_touch_timers (cfg : Config) (svc : Services)
    (i : invocation) (chatId : string) (w : world svc) :
  (forall whatToDo seconds, i <> start_background_action whatToDo seconds) ->
  (forall input, i <> stop_background_action input) ->
  let w' := (invoke_tool cfg svc i chatId w).2 in
  intervals svc w' = intervals svc w
  /\ backgroundActionIntervals svc w' = backgroundActionIntervals svc w
  /\ next_handle svc w' = next_handle svc w.
Proof.
  intros Hs Ht w'. subst w'.
  assert (same_timers svc w (invoke_tool cfg svc i chatId w).2) as (H1 & H2 & H3).
  { destruct i as [| |input| |[]|[]|[]|]; simpl; try by repeat split.
    - apply keeps_sendEthTool.
    - by destruct (Hs whatToDo0 intervalInSeconds).
    - by destruct (Ht input).
    - apply keeps_getNewsTool.
    - apply keeps_getCurrentAccountTool.
    - apply keeps_generateStarknetAccountTool.
    - apply keeps_deployStarknetAccountTool.
    - apply keeps_swapTool. }
  done.
Qed.

Lemma only_background_tools_touch_timers_witness :
  intervals Demo.services
    (invoke_tool Demo.per_session Demo.services (deploy_starknet_account (Some "")) "42"
       Demo.watching).2
  = intervals Demo.services Demo.watching.
Proof.
  destruct (only_background_tools_touch_timers Demo.per_session Demo.services
              (deploy_starknet_account (Some "")) "42" Demo.watching
              ltac:(discriminate) ltac:(discriminate)) as (H & _).
  exact H.
Defined.

(** X4.  generate-account changes no store key but the session's
    generated slot: the deployed key and address of the session, which
    the running account is resolved from, stay as they were until
    deploy-account. *)
Theorem generate_keeps_deployed_account (cfg : Config) (svc : Services)
    (input : option string) (chatId : string) (w : world svc) :
  let w' := (generateStarknetAccountTool cfg svc input chatId w).2 in
  (forall key, key <> chatId +:+ ":generatedAccountPrivateKey" ->
               storage svc w' !! key = storage svc w !! key)
  /\ storage svc w' !! (chatId +:+ ":privateKey") = storage svc w !! (chatId +:+ ":privateKey")
  /\ storage svc w' !! (chatId +:+ ":accountAddress")
     = storage svc w !! (chatId +:+ ":accountAddress").
Proof.
  intros w'. subst w'.
  assert (forall key, key <> generated_key chatId ->
            storage svc (generateStarknetAccountTool cfg svc input chatId w).2 !! key
            = storage svc w !! key) as H.
  { intros key Hk. destruct input as [i|]; [|reflexivity].
    change (generateStarknetAccountTool cfg svc (Some i) chatId)
      with (generateStarknetAccount_body cfg svc chatId).
    apply ww_generateStarknetAccountTool. by intros <-. }
  split; [exact H|].
  split; apply H; intros E; symmetry in E.
  - by apply (generated_key_ne_privateKey_key chatId).
  - by apply (generated_key_ne_accountAddress_key chatId).
Qed.

(** deploy-account makes one call, to the wallet, with the key of the
    generated slot, whether the deployment succeeds or not. *)
Lemma deployStarknetAccountTool_trace (cfg : Config) (svc : Services) chatId (w : world svc) :
  account_set_in_env cfg = false ->
  trace svc (deployStarknetAccount_body cfg svc chatId w).2
  = trace svc w ++ [EvDeployAccount svc (storage svc w !! generated_key chatId)].
Proof.
  intros Hc.
  destruct (wallet_deployAccount svc (storage svc w !! generated_key chatId) (ext svc w))
    as [[a|e] e'] eqn:Hd.
  - by rewrite (deployStarknetAccountTool_run cfg svc chatId w a e' Hc Hd).
  - by rewrite (deployStarknetAccountTool_propagates cfg svc chatId w e e' Hc Hd).
Qed.

(** X5.  deploy-account writes all or nothing: when it returns, the key
    of the generated slot and the deployed address are both stored;
    when the deployment fails, the store is exactly as it was. *)
Theorem deploy_stores_both_or_nothing (cfg : Config) (svc : Services)
    (input : option string) (chatId : string) (w : world svc) :
  account_set_in_env cfg = false ->
  match deployStarknetAccountTool cfg svc input chatId w with
  | (Returned text, w') =>
      exists OZcontractAddress,
        text = "Account deployed. Address: " +:+ OZcontractAddress
        /\ storage svc w' !! (chatId +:+ ":privateKey")
           = storage svc w !! (chatId +:+ ":generatedAccountPrivateKey")
        /\ storage svc w' !! (chatId +:+ ":accountAddress") = Some OZcontractAddress
  | (Threw e, w') => storage svc w' = storage svc w
  end.
Proof.
  intros Hc. destruct input as [i|]; [|reflexivity].
  change (deployStarknetAccountTool cfg svc (Some i) chatId)
    with (deployStarknetAccount_body cfg svc chatId).
  destruct (wallet_deployAccount svc (storage svc w !! generated_key chatId) (ext svc w))
    as [[a|e] e'] eqn:Hd.
  - rewrite (deployStarknetAccountTool_run cfg svc chatId w a e' Hc Hd).
    exists a. split; [done|]. simpl.
    fold (privateKey_key chatId) (accountAddress_key chatId) (generated_key chatId).
    split; [|apply lookup_insert_eq].
    rewrite lookup_insert_ne
      by (intros H; by apply (privateKey_key_ne_accountAddress_key chatId)).
    apply saved_lookup.
  - by rewrite (deployStarknetAccountTool_propagates cfg svc chatId w e e' Hc Hd).
Qed.

Lemma deploy_stores_both_or_nothing_witness :
  storage Demo.services
    (deployStarknetAccountTool Demo.per_session Demo.services (Some "") "42"
       Demo.funded).2
  = storage Demo.services Demo.funded.
Proof.
  exact (deploy_stores_both_or_nothing Demo.per_session Demo.services (Some "") "42"
           Demo.funded eq_refl).
Defined.

(** X6.  deploy-account does not clear the generated slot: after a
    deployment that succeeded, a second deploy-account gives the wallet
    the same key again. *)
Theorem deploy_again_submits_same_key (cfg : Config) (svc : Services)
    (input : option string) (again : string) (chatId : string) (w w1 : world svc)
    (text : string) :
  account_set_in_env cfg = false ->
  deployStarknetAccountTool cfg svc input chatId w = (Returned text, w1) ->
  let privateKey := storage svc w !! (chatId +:+ ":generatedAccountPrivateKey") in
  storage svc w1 !! (chatId +:+ ":generatedAccountPrivateKey") = privateKey
  /\ trace svc w1 = trace svc w ++ [EvDeployAccount svc privateKey]
  /\ trace svc (deployStarknetAccountTool cfg svc (Some again) chatId w1).2
     = trace svc w ++ [EvDeployAccount svc privateKey; EvDeployAccount svc privateKey].
Proof.
  intros Hc Hr privateKey.
  destruct input as [i|]; [|discriminate Hr].
  change (deployStarknetAccountTool cfg svc (Some i) chatId)
    with (deployStarknetAccount_body cfg svc chatId) in Hr.
  change (deployStarknetAccountTool cfg svc (Some again) chatId)
    with (deployStarknetAccount_body cfg svc chatId).
  assert (storage svc w1 !! generated_key chatId = privateKey) as Hk.
  { replace w1 with (deployStarknetAccount_body cfg svc chatId w).2 by by rewrite Hr.
    apply ww_deployStarknetAccountTool. intros [E | E].
    - by apply (generated_key_ne_privateKey_key chatId).
    - by apply (generated_key_ne_accountAddress_key chatId). }
  assert (trace svc w1 = trace svc w ++ [EvDeployAccount svc privateKey]) as Ht.
  { replace w1 with (deployStarknetAccount_body cfg svc chatId w).2 by by rewrite Hr.
    by apply deployStarknetAccountTool_trace. }
  split; [exact Hk|]. split; [exact Ht|].
  rewrite (deployStarknetAccountTool_trace cfg svc chatId w1 Hc), Hk, Ht.
  by rewrite <- app_assoc.
Qed.

Lemma deploy_again_submits_same_key_witness :
  let w1 :=
    (deployStarknetAccountTool Demo.per_session Demo.services (Some "") "42"
       Demo.generated).2 in
  trace Demo.services
    (deployStarknetAccountTool Demo.per_session Demo.services (Some "") "42" w1).2
  = trace Demo.services Demo.generated
    ++ [EvDeployAccount Demo.services (Some "key0");
        EvDeployAccount Demo.services (Some "key0")].
Proof.
  intros w1.
  destruct (deploy_again_submits_same_key Demo.per_session Demo.services (Some "") ""
              "42" Demo.generated w1 "Account deployed. Address: 0xkey0" eq_refl eq_refl)
    as (_ & _ & H).
  exact H.
Defined.

(** ** send-funds and swap: what is submitted, and when *)

(** The Number [1e18]. *)
Lemma n1e18_value : n1e18 = S754_finite false 7812500000000000 7.
Proof. vm_compute. reflexivity. Qed.

(** An amount that is no decimal literal, or is [Infinity], has no
    value in wei: [BigInt] throws. *)
Lemma amountInWei_not_a_number (amountInEth : string) :
  match StrDecimalLiteral amountInEth with
  | Some (LitDecimal _ _ _) => False
  | _ => True
  end ->
  amountInWei amountInEth = None.
Proof.
  unfold amountInWei, floored_wei, parseFloat. rewrite n1e18_value.
  destruct (StrDecimalLiteral amountInEth) as [[neg|neg m e]|]; [|done|]; by intros _.
Qed.

(** X7.  Whatever the collaborators do, send-funds asks the wallet for
    the session's account and then submits at most one call: a
    [transfer] on the ETH token contract to the recipient, of an amount
    that is the converted input, with "0" as the high word.  It submits
    nothing when the amount has no value in wei. *)
Theorem sendEthTool_at_most_one_transfer (svc : Services)
    (recipientAddress amountInEth chatId : string) (w : world svc) :
  let w' := (sendEthTool svc recipientAddress amountInEth chatId w).2 in
  (trace svc w' = trace svc w ++ [EvGetAccount svc chatId]
   \/ exists account amount,
        amountInWei amountInEth = Some amount
        /\ trace svc w'
           = trace svc w
             ++ [EvGetAccount svc chatId;
                 EvExecute svc account
                   {| contractAddress :=
                        "0x049d36570d4e46f48e99674bd3fcc84644ddd6b96f7c741b1562b82f9e004dc7";
                      entrypoint := "transfer";
                      calldata := [recipientAddress; amount; "0"] |}])
  /\ (amountInWei amountInEth = None ->
      trace svc w' = trace svc w ++ [EvGetAccount svc chatId]).
Proof.
  intros w'. subst w'.
  unfold sendEthTool, try_catch, getAccount, execute.
  unfold mbind, M_bind, bind, mret, M_ret, ret, throw, call. simpl.
  destruct (wallet_getAccount svc chatId (storage svc w) (ext svc w)) as [[[acct|]|e] e1];
    simpl.
  - destruct (amountInWei amountInEth) as [amount|] eqn:Ha; simpl.
    + split; [|done]. right. exists acct, amount. split; [done|].
      destruct (account_execute svc acct _ e1) as [[h|e] e2]; simpl;
        [|destruct e]; by rewrite <- app_assoc.
    + split; [left|intros _]; reflexivity.
  - split; [left|intros _]; reflexivity.
  - destruct e; split; try (intros _); try left; reflexivity.
Qed.

(** X8.  An amount that is not a number ([parseFloat] gives [NaN]) makes
    send-funds return the [RangeError] of [BigInt] as an error text; no
    transfer is submitted. *)
Theorem sendEthTool_rejects_not_a_number (svc : Services)
    (recipientAddress amountInEth chatId : string) (w : world svc)
    (account : Account svc) (e1 : Ext svc) :
  wallet_getAccount svc chatId (storage svc w) (ext svc w) = (Returned (Some account), e1) ->
  StrDecimalLiteral amountInEth = None ->
  sendEthTool svc recipientAddress amountInEth chatId w
  = (Returned ("Error sending ETH: " +:+ BigInt_RangeError svc S754_nan),
     set_ext svc e1 (set_trace svc (trace svc w ++ [EvGetAccount svc chatId]) w)).
Proof.
  intros Ha Hn.
  assert (amountInWei amountInEth = None) as Hw
    by (apply amountInWei_not_a_number; by rewrite Hn).
  assert (floored_wei amountInEth = S754_nan) as Hf.
  { unfold floored_wei, parseFloat. by rewrite Hn, n1e18_value. }
  unfold sendEthTool, try_catch, getAccount.
  unfold mbind, M_bind, bind, mret, M_ret, ret, throw, call. simpl.
  rewrite Ha. simpl. rewrite Hw, Hf. reflexivity.
Qed.

Lemma sendEthTool_rejects_not_a_number_witness :
  (sendEthTool Demo.services "0xbob" "one" "42" Demo.funded).1
  = Returned
      "Error sending ETH: The number cannot be converted to a BigInt because it is not an integer".
Proof.
  exact (f_equal fst
           (sendEthTool_rejects_not_a_number Demo.services "0xbob" "one" "42" Demo.funded
              "0xacc" 0%nat eq_refl eq_refl)).
Defined.

(** X9.  A failure of the transfer itself comes back as a text: the
    message of the [Error] after "Error sending ETH: ", or "Unknown
    error occurred" when what was thrown is no [Error]. *)
Theorem sendEthTool_reports_transfer_failure (svc : Services)
    (recipientAddress amountInEth chatId : string) (w : world svc)
    (account : Account svc) (amount : string) (e : thrown) (e1 e2 : Ext svc) :
  wallet_getAccount svc chatId (storage svc w) (ext svc w) = (Returned (Some account), e1) ->
  amountInWei amountInEth = Some amount ->
  account_execute svc account
    {| contractAddress := ETH_TOKEN_ADDRESS; entrypoint := "transfer";
       calldata := [recipientAddress; amount; "0"] |} e1
  = (Threw e, e2) ->
  (sendEthTool svc recipientAddress amountInEth chatId w).1
  = Returned match e with
             | ErrorObject message => "Error sending ETH: " +:+ message
             | NonError => "Error sending ETH: Unknown error occurred"
             end.
Proof.
  intros Ha Hw Hx.
  unfold sendEthTool, try_catch, getAccount, execute.
  unfold mbind, M_bind, bind, mret, M_ret, ret, throw, call. simpl.
  rewrite Ha. simpl. rewrite Hw. simpl. rewrite Hx. by destruct e.
Qed.

(** X10.  Without an account for the session, send-funds, swap and
    get-current-account (called with an input) answer that the account
    does not exist, and call nothing but the wallet's account lookup;
    get-current-account called without input throws before the lookup,
    on the binding of its first parameter. *)
Theorem no_account_no_action (cfg : Config) (svc : Services)
    (i : invocation) (chatId : string) (w : world svc) (e1 : Ext svc) :
  wallet_getAccount svc chatId (storage svc w) (ext svc w) = (Returned None, e1) ->
  match i with
  | send_eth _ _ | swap _ _ _ | get_starknet_account (Some _) =>
      invoke_tool cfg svc i chatId w
      = (Returned "Account does not exist, you need to create one first.",
         set_ext svc e1 (set_trace svc (trace svc w ++ [EvGetAccount svc chatId]) w))
  | get_starknet_account None =>
      invoke_tool cfg svc i chatId w
      = (Threw (ErrorObject "Cannot destructure 'undefined' as it is undefined."), w)
  | _ => True
  end.
Proof.
  intros Ha. destruct i as [| | | |[]| | |]; try done; simpl.
  - unfold sendEthTool, try_catch, getAccount.
    unfold mbind, M_bind, bind, mret, M_ret, ret, call. simpl. by rewrite Ha.
  - change (getCurrentAccountTool svc (Some s) chatId) with (getCurrentAccount_body svc chatId).
    unfold getCurrentAccount_body, getAccount.
    unfold mbind, M_bind, bind, mret, M_ret, ret, call. simpl. by rewrite Ha.
  - unfold swapTool, try_catch, getAccount.
    unfold mbind, M_bind, bind, mret, M_ret, ret, call. simpl. by rewrite Ha.
Qed.

Lemma no_account_no_action_witness :
  invoke_tool Demo.per_session Demo.services (send_eth "0xbob" "1") "42" Demo.start
  = (Returned "Account does not exist, you need to create one first.",
     set_ext Demo.services 0%nat
       (set_trace Demo.services [EvGetAccount Demo.services "42"] Demo.start)).
Proof.
  exact (no_account_no_action Demo.per_session Demo.services (send_eth "0xbob" "1") "42"
           Demo.start 0%nat eq_refl).
Defined.

Lemma sendEthTool_reports_transfer_failure_witness :
  (sendEthTool Outage.services "0xbob" "1" "42" Outage.funded).1
  = Returned "Error sending ETH: Insufficient balance".
Proof.
  exact (sendEthTool_reports_transfer_failure Outage.services "0xbob" "1" "42"
           Outage.funded "0xacc" "1000000000000000000"
           (ErrorObject "Insufficient balance") 0%nat 0%nat eq_refl eq_refl eq_refl).
Defined.

(** X11.  Whatever the collaborators do, swap executes at most one swap,
    and only on a quote it has just obtained for the resolved tokens,
    with approval on and a slippage of 0.01; a failure anywhere is
    logged on the console and nothing is executed after it. *)
Theorem swapTool_protocol (cfg : Config) (svc : Services)
    (tokenIn tokenOut amountIn chatId : string) (w : world svc) :
  let quoted :=
    EvGetQuote svc (normalizedToken cfg tokenIn) (normalizedToken cfg tokenOut) amountIn in
  let options := {| executeApprove := true; slippage := number_of_decimal false 1 (-2) |} in
  exists tail,
    trace svc (swapTool cfg svc tokenIn tokenOut amountIn chatId w).2
    = trace svc w ++ EvGetAccount svc chatId :: tail
    /\ (tail = []
        \/ (exists e, tail = [EvConsoleError svc e])
        \/ (exists e, tail = [quoted; EvConsoleError svc e])
        \/ (exists account quote e1 e2,
              swap_getQuote svc (normalizedToken cfg tokenIn) (normalizedToken cfg tokenOut)
                amountIn e1 = (Returned quote, e2)
              /\ (tail = [quoted; EvExecuteSwap svc account quote options]
                  \/ exists e,
                       tail = [quoted; EvExecuteSwap svc account quote options;
                               EvConsoleError svc e]))).
Proof.
  intros quoted options. subst quoted options.
  unfold swapTool, try_catch, getAccount, getQuote, executeSwap, console_error, log, lift.
  unfold mbind, M_bind, bind, mret, M_ret, ret, call. simpl.
  destruct (wallet_getAccount svc chatId (storage svc w) (ext svc w)) as [[[acct|]|e] e1];
    simpl.
  - destruct (swap_getQuote svc _ _ _ e1) as [[q|e] e2] eqn:Hq; simpl.
    + destruct (formatUnits (buyAmount svc q) 18) as [out|e]; simpl.
      * destruct (swap_executeSwap svc acct q _ e2) as [[r|e] e3]; simpl;
          eexists; (split; [by rewrite <- !app_assoc|]);
          right; right; right; exists acct, q, e1, e2; (split; [exact Hq|]);
          [by left | right; by eexists].
      * eexists. split; [by rewrite <- !app_assoc|]. right; right; left. by eexists.
    + eexists. split; [by rewrite <- !app_assoc|]. right; right; left. by eexists.
  - exists []. split; [done | by left].
  - eexists. split; [by rewrite <- !app_assoc|]. right; left. by eexists.
Qed.

(** X12.  When the exchange has no quote, swap executes nothing and
    returns a text that carries the message of the [Error] (or "Unknown
    error occurred") and suggests to try again. *)
Theorem swapTool_reports_quote_failure (cfg : Config) (svc : Services)
    (tokenIn tokenOut amountIn chatId : string) (w : world svc)
    (account : Account svc) (e : thrown) (e1 e2 : Ext svc) :
  wallet_getAccount svc chatId (storage svc w) (ext svc w) = (Returned (Some account), e1) ->
  swap_getQuote svc (normalizedToken cfg tokenIn) (normalizedToken cfg tokenOut) amountIn e1
  = (Threw e, e2) ->
  let result := swapTool cfg svc tokenIn tokenOut amountIn chatId w in
  result.1
  = Returned ("Failed to execute swap: "
              +:+ match e with
                  | ErrorObject message => message
                  | NonError => "Unknown error occurred"
                  end
              +:+ ". Please try again with a different amount or check your balance.")
  /\ trace svc result.2
     = trace svc w
       ++ [EvGetAccount svc chatId;
           EvGetQuote svc (normalizedToken cfg tokenIn) (normalizedToken cfg tokenOut) amountIn;
           EvConsoleError svc e]
  /\ ext svc result.2 = e2.
Proof.
  intros Ha Hq result. subst result.
  unfold swapTool, try_catch, getAccount, getQuote, console_error, log.
  unfold mbind, M_bind, bind, mret, M_ret, ret, call. simpl.
  rewrite Ha. simpl. rewrite Hq. simpl. rewrite <- !app_assoc. by destruct e.
Qed.

Lemma swapTool_reports_quote_failure_witness :
  (swapTool Demo.per_session Outage.services "eth" "strk" "3" "42" Outage.funded).1
  = Returned
      "Failed to execute swap: Unknown error occurred. Please try again with a different amount or check your balance.".
Proof.
  destruct (swapTool_reports_quote_failure Demo.per_session Outage.services
              "eth" "strk" "3" "42" Outage.funded "0xacc" NonError 0%nat 0%nat
              eq_refl eq_refl) as (H & _).
  exact H.
Defined.

(** ** Background actions of different sessions *)

(** Starting the background action of a session, or running the body
    of [stop] for it, leaves the timers of every other session alone. *)
Lemma timers_of_other_sessions (svc : Services)
    (chatId other whatToDo : string) (seconds : number) (w : world svc) :
  timers_wf svc w ->
  chatId <> other ->
  let started := (startBackgroundAction svc whatToDo seconds chatId w).2 in
  let stopped := (stopBackgroundAction_body svc chatId w).2 in
  active_timers svc other started = active_timers svc other w
  /\ backgroundActionIntervals svc started !! other
     = backgroundActionIntervals svc w !! other
  /\ active_timers svc other stopped = active_timers svc other w
  /\ backgroundActionIntervals svc stopped !! other
     = backgroundActionIntervals svc w !! other.
Proof.
  intros [Hrec Hlive Hfresh] Hne started stopped. subst started stopped.
  rewrite startBackgroundAction_run, stopBackgroundAction_run. cbn [snd].
  assert (forall h, default None (backgroundActionIntervals svc w !! chatId) = Some h ->
            forall x, intervals svc w !! h = Some x -> session x <> other) as Hown.
  { intros h Hh x Hx. apply entry_handle in Hh.
    destruct (Hlive chatId h Hh) as (i & Hi & Hs). congruence. }
  unfold active_timers.
  destruct (default None (backgroundActionIntervals svc w !! chatId)) as [h0|] eqn:Hcur;
    cbn [intervals backgroundActionIntervals].
  - split; [|split; [|split]].
    + apply map_eq. intros k. apply option_eq. intros x.
      rewrite !map_lookup_filter_Some, lookup_insert_Some, lookup_delete_Some. simpl.
      split.
      * intros [[[<- <-]|[Hk [Hk0 Hx]]] Hs]; [done|done].
      * intros [Hx Hs]. split; [|done]. right.
        split; [apply Hfresh in Hx; lia|].
        split; [|done]. intros <-. by apply (Hown h0 eq_refl x Hx).
    + by rewrite !lookup_insert_ne.
    + apply map_eq. intros k. apply option_eq. intros x.
      rewrite !map_lookup_filter_Some, lookup_delete_Some. simpl.
      split; [by intros [[_ Hx] Hs]|].
      intros [Hx Hs]. split; [|done]. split; [|done].
      intros <-. by apply (Hown h0 eq_refl x Hx).
    + by rewrite lookup_insert_ne.
  - split; [|split; [|split]]; try done.
    + apply map_eq. intros k. apply option_eq. intros x.
      rewrite !map_lookup_filter_Some, lookup_insert_Some. simpl.
      split.
      * intros [[[<- <-]|[Hk Hx]] Hs]; [done|done].
      * intros [Hx Hs]. split; [|done]. right.
        split; [apply Hfresh in Hx; lia|done].
    + by rewrite lookup_insert_ne.
Qed.

(** X13.  Background actions are per session: starting or stopping the
    one of a session leaves the live timers and the recorded handle of
    every other session as they were. *)
Theorem background_actions_are_per_session (svc : Services) (input : option string)
    (chatId other whatToDo : string) (seconds : number) (w : world svc) :
  timers_wf svc w ->
  chatId <> other ->
  let started := (startBackgroundAction svc whatToDo seconds chatId w).2 in
  let stopped := (stopBackgroundAction svc input chatId w).2 in
  active_timers svc other started = active_timers svc other w
  /\ backgroundActionIntervals svc started !! other
     = backgroundActionIntervals svc w !! other
  /\ active_timers svc other stopped = active_timers svc other w
  /\ backgroundActionIntervals svc stopped !! other
     = backgroundActionIntervals svc w !! other.
Proof.
  intros Hwf Hne started stopped.
  destruct (timers_of_other_sessions svc chatId other whatToDo seconds w Hwf Hne)
    as (H1 & H2 & H3 & H4).
  subst started stopped. destruct input as [i|]; done.
Qed.

Lemma background_actions_are_per_session_witness :
  active_timers Demo.services "42"
    (startBackgroundAction Demo.services "check my balance" n1000 "7" Demo.watching).2
  = active_timers Demo.services "42" Demo.watching
  /\ active_timers Demo.services "42"
       (stopBackgroundAction Demo.services (Some "") "7" Demo.watching).2
     = active_timers Demo.services "42" Demo.watching.
Proof.
  destruct (background_actions_are_per_session Demo.services (Some "") "7" "42"
              "check my balance" n1000 Demo.watching
              (timers_wf_start Demo.services "get the news" n1000 "42" Demo.start
                 (timers_wf_initial Demo.services 0%nat ∅))
              ltac:(discriminate)) as (H1 & _ & H2 & _).
  exact (conj H1 H2).
Defined.

(** ** The dialogue graph, run *)

Section GraphRun.
Context {svc : Services} (eng : Engine svc).

(** One visit of [agent]: the model is called on the history; its
    response is appended; the graph goes on to [tools] when the
    response carries tool calls and stops otherwise. *)
Lemma run_agent limit (messages : list Message) (w : world svc) :
  run eng (S limit) "agent" messages w
  = match model_invoke svc eng messages (ext svc w) with
    | (Returned response, e') =>
        if (0 <? pending response)%nat
        then run eng limit "tools" (messages ++ [response]) (set_ext svc e' w)
        else (Returned (messages ++ [response]), set_ext svc e' w)
    | (Threw e, e') => (Threw e, set_ext svc e' w)
    end.
Proof.
  cbn [run]. change (node_action eng "agent") with (Some (callModel eng)).
  unfold callModel, reducer. unfold mbind, M_bind, bind, mret, M_ret, ret.
  destruct (model_invoke svc eng messages (ext svc w)) as [[response|e] e']; [|done].
  change (next_node workflow "agent" (messages ++ [response]))
    with (Some (shouldContinue (messages ++ [response]))).
  rewrite shouldContinue_last.
  by destruct (0 <? pending response)%nat.
Qed.

(** One visit of [tools]: the tool messages are appended and the graph
    goes back to [agent]. *)
Lemma run_tools limit (messages : list Message) (w : world svc) :
  run eng (S limit) "tools" messages w
  = match toolNode svc eng messages w with
    | (Returned update, w1) => run eng limit "agent" (messages ++ update) w1
    | (Threw e, w1) => (Threw e, w1)
    end.
Proof.
  cbn [run]. change (node_action eng "tools") with (Some (toolNode svc eng)).
  unfold reducer. unfold mbind, M_bind, bind.
  by destruct (toolNode svc eng messages w) as [[update|e] w1].
Qed.

Lemma invoke_run limit (saved input : list Message) :
  invoke eng limit saved input = run eng limit "agent" (saved ++ input).
Proof. reflexivity. Qed.

(** A run that returns, from either node, has appended to the history
    and ends on a response of the model without tool calls. *)
Lemma run_ends_on_an_answer limit :
  forall (messages final : list Message) (w w' : world svc) (node : string),
    node = "agent" \/ node = "tools" ->
    run eng limit node messages w = (Returned final, w') ->
    exists added response e e',
      final = messages ++ added ++ [response]
      /\ pending response = 0%nat
      /\ model_invoke svc eng (messages ++ added) e = (Returned response, e').
Proof.
  induction limit as [|limit IH]; intros messages final w w' node Hnode Hrun;
    [discriminate Hrun|].
  destruct Hnode as [-> | ->].
  - rewrite run_agent in Hrun.
    destruct (model_invoke svc eng messages (ext svc w)) as [[response|e] e1] eqn:Hm;
      [|discriminate Hrun].
    destruct (0 <? pending response)%nat eqn:Hp.
    + destruct (IH _ _ _ _ _ (or_intror eq_refl) Hrun) as (added & r & e & e' & -> & H0 & Hr).
      exists ([response] ++ added), r, e, e'.
      rewrite <- !app_assoc in *. done.
    + injection Hrun as <- <-.
      exists [], response, (ext svc w), e1. rewrite app_nil_r.
      apply Nat.ltb_ge in Hp. split; [done|]. split; [lia|done].
  - rewrite run_tools in Hrun.
    destruct (toolNode svc eng messages w) as [[update|e] w1]; [|discriminate Hrun].
    destruct (IH _ _ _ _ _ (or_introl eq_refl) Hrun) as (added & r & e & e' & -> & H0 & Hr).
    exists (update ++ added), r, e, e'.
    rewrite <- !app_assoc in *. done.
Qed.

(** X14.  A turn only appends to the history, and when it returns the
    last message is a response of the model, to the whole history
    before it, that carries no pending tool call. *)
Theorem invoke_ends_on_an_answer (limit : nat) (saved input final : list Message)
    (w w' : world svc) :
  invoke eng limit saved input w = (Returned final, w') ->
  exists added response e e',
    final = saved ++ input ++ added ++ [response]
    /\ pending response = 0%nat
    /\ model_invoke svc eng (saved ++ input ++ added) e = (Returned response, e').
Proof.
  rewrite invoke_run. intros Hrun.
  destruct (run_ends_on_an_answer limit _ _ _ _ _ (or_introl eq_refl) Hrun)
    as (added & r & e & e' & -> & H0 & Hr).
  exists added, r, e, e'. rewrite <- !app_assoc in *. done.
Qed.

(** X15.  The bot ignores a message whose chat id is falsy; otherwise,
    when the turn returns, the reply it sends is the content of the
    model's final response, the one without tool calls, and the
    thread's history is the old one, the user's text, and what the turn
    appended. *)
Theorem on_text_replies_with_the_answer (limit : nat) (chat_id : Z) (text : string)
    (saved : list Message) (w w' : world svc) (reply : option string)
    (history : list Message) :
  on_text eng limit chat_id text saved w = (Returned (reply, history), w') ->
  (chat_id = 0 /\ reply = None /\ history = saved /\ w' = w)
  \/ (chat_id <> 0
      /\ exists added response,
           history = saved ++ [HumanMessage text] ++ added ++ [response]
           /\ pending response = 0%nat
           /\ reply = Some (content response)).
Proof.
  unfold on_text. destruct (chat_id =? 0) eqn:Hc.
  - intros H. injection H as <- <- <-. left. by apply Z.eqb_eq in Hc.
  - intros H. right. split; [by apply Z.eqb_neq in Hc|].
    unfold mbind, M_bind, bind, mret, M_ret, ret, lift in H.
    destruct (invoke eng limit saved [HumanMessage text] w) as [[final|e] w1] eqn:Hi;
      [|discriminate H].
    rewrite invoke_run in Hi.
    destruct (run_ends_on_an_answer limit _ _ _ _ _ (or_introl eq_refl) Hi)
      as (added & response & _ & _ & -> & H0 & _).
    exists added, response.
    unfold last_content, lastMessage in H.
    rewrite !app_assoc, last_snoc in H. rewrite <- !app_assoc in H.
    injection H as <- <- _. done.
Qed.

(** X16.  When the model answers without tool calls, the turn makes one
    call to the model, appends the response and nothing else, and runs
    no tool: only the outside world may have changed. *)
Theorem invoke_direct_answer (limit : nat) (saved input : list Message)
    (w : world svc) (response : Message) (e' : Ext svc) :
  model_invoke svc eng (saved ++ input) (ext svc w) = (Returned response, e') ->
  pending response = 0%nat ->
  invoke eng (S limit) saved input w
  = (Returned (saved ++ input ++ [response]), set_ext svc e' w).
Proof.
  intros Hm Hp. rewrite invoke_run, run_agent, Hm, Hp. simpl.
  by rewrite <- app_assoc.
Qed.

(** A run with a model that asks for tools every time never returns. *)
Lemma run_insatiable limit :
  (forall messages e response e',
      model_invoke svc eng messages e = (Returned response, e') ->
      (0 < pending response)%nat) ->
  forall (messages : list Message) (w : world svc) (node : string),
    node = "agent" \/ node = "tools" ->
    exists e, (run eng limit node messages w).1 = Threw e.
Proof.
  intros Hmodel. induction limit as [|limit IH]; intros messages w node Hnode.
  - by eexists.
  - destruct Hnode as [-> | ->].
    + rewrite run_agent.
      destruct (model_invoke svc eng messages (ext svc w)) as [[response|e] e1] eqn:Hm;
        [|by eexists].
      apply Hmodel in Hm. apply Nat.ltb_lt in Hm. rewrite Hm. apply IH. by right.
    + rewrite run_tools.
      destruct (toolNode svc eng messages w) as [[update|e] w1]; [|by eexists].
      apply IH. by left.
Qed.

(** X17.  The loop has no exit of its own: with a model whose every
    response carries a tool call, a turn never returns, whatever the
    recursion limit; it ends in an error. *)
Theorem invoke_insatiable_never_returns (limit : nat) (saved input : list Message)
    (w : world svc) :
  (forall messages e response e',
      model_invoke svc eng messages e = (Returned response, e') ->
      (0 < pending response)%nat) ->
  exists e, (invoke eng limit saved input w).1 = Threw e.
Proof.
  intros Hmodel. rewrite invoke_run. apply run_insatiable; [exact Hmodel | by left].
Qed.

(** X18.  A failure of the model is not caught: the turn, and the
    handler of the bot with it, throws what the model threw, and no
    reply is sent. *)
Theorem model_failure_is_not_caught (limit : nat) (chat_id : Z) (text : string)
    (saved : list Message) (w : world svc) (e : thrown) (e' : Ext svc) :
  chat_id <> 0 ->
  model_invoke svc eng (saved ++ [HumanMessage text]) (ext svc w) = (Threw e, e') ->
  invoke eng (S limit) saved [HumanMessage text] w = (Threw e, set_ext svc e' w)
  /\ on_text eng (S limit) chat_id text saved w = (Threw e, set_ext svc e' w).
Proof.
  intros Hc Hm.
  assert (invoke eng (S limit) saved [HumanMessage text] w = (Threw e, set_ext svc e' w))
    as Hi by (by rewrite invoke_run, run_agent, Hm).
  split; [exact Hi|].
  unfold on_text. apply Z.eqb_neq in Hc. rewrite Hc.
  unfold mbind, M_bind, bind. by rewrite Hi.
Qed.

End GraphRun.

Lemma invoke_ends_on_an_answer_witness :
  exists added response e e',
    [ HumanMessage "news?"; DemoEngine.ask_news;
      {| content := "[]"; tool_calls := None |}; DemoEngine.answer ]
    = [] ++ [HumanMessage "news?"] ++ added ++ [response]
    /\ pending response = 0%nat
    /\ model_invoke Demo.services DemoEngine.newsreader
         ([] ++ [HumanMessage "news?"] ++ added) e
       = (Returned response, e').
Proof.
  apply (invoke_ends_on_an_answer DemoEngine.newsreader 25 [] [HumanMessage "news?"]
           _ Demo.start
           (invoke DemoEngine.newsreader 25 [] [HumanMessage "news?"] Demo.start).2).
  vm_compute. reflexivity.
Defined.

Lemma on_text_replies_with_the_answer_witness :
  (7 = 0 /\ Some "No news today." = None
   /\ [HumanMessage "hi"; DemoEngine.answer] = [] /\ Demo.start = Demo.start)
  \/ (7 <> 0
      /\ exists added response,
           [HumanMessage "hi"; DemoEngine.answer]
           = [] ++ [HumanMessage "hi"] ++ added ++ [response]
           /\ pending response = 0%nat
           /\ Some "No news today." = Some (content response)).
Proof.
  exact (on_text_replies_with_the_answer DemoEngine.direct 25 7 "hi" [] Demo.start
           Demo.start (Some "No news today.") [HumanMessage "hi"; DemoEngine.answer]
           eq_refl).
Defined.

Lemma invoke_direct_answer_witness :
  invoke DemoEngine.direct 25 [] [HumanMessage "hi"] Demo.start
  = (Returned [HumanMessage "hi"; DemoEngine.answer], Demo.start).
Proof.
  exact (invoke_direct_answer DemoEngine.direct 24 [] [HumanMessage "hi"] Demo.start
           DemoEngine.answer 0%nat eq_refl eq_refl).
Defined.

Lemma invoke_insatiable_never_returns_witness :
  exists e,
    (invoke DemoEngine.insatiable 25 [] [HumanMessage "news?"] Demo.start).1 = Threw e.
Proof.
  apply (invoke_insatiable_never_returns DemoEngine.insatiable 25 [] [HumanMessage "news?"]
           Demo.start).
  intros messages e response e' H. injection H as <- _. apply Nat.lt_0_1.
Defined.

Lemma model_failure_is_not_caught_witness :
  invoke DemoEngine.down 25 [] [HumanMessage "hi"] Demo.start
  = (Threw (ErrorObject "503"), Demo.start)
  /\ on_text DemoEngine.down 25 7 "hi" [] Demo.start
     = (Threw (ErrorObject "503"), Demo.start).
Proof.
  exact (model_failure_is_not_caught DemoEngine.down 24 7 "hi" [] Demo.start
           (ErrorObject "503") 0%nat ltac:(discriminate) eq_refl).
Defined.

(** ** The conversion to wei, in general *)

(** [digits2_pos] counts binary digits, as [Pos.size] does. *)
Lemma digits2_pos_size (p : positive) : digits2_pos p = Pos.size p.
Proof. induction p as [p IH|p IH|]; simpl; [by rewrite IH | by rewrite IH | done]. Qed.

Lemma digits2_pos_bound (p : positive) :
  Zpos p < 2 ^ 53 -> Zpos (digits2_pos p) <= 53.
Proof.
  intros Hp. rewrite digits2_pos_size.
  pose proof (Pos.size_le p) as Hs.
  destruct (Z_le_gt_dec (Zpos (Pos.size p)) 53) as [|Hgt]; [done|exfalso].
  assert (2 ^ 54 <= 2 ^ Zpos (Pos.size p)) by (apply Z.pow_le_mono_r; lia).
  assert (Zpos (2 ^ Pos.size p) <= Zpos p~0) as Hs' by exact Hs.
  rewrite Pos2Z.inj_pow in Hs'. change (Zpos p~0) with (2 * Zpos p) in Hs'.
  change (2 ^ 54) with (2 * 2 ^ 53) in H. lia.
Qed.

Lemma iter_xO_value (p n : positive) : Zpos (Pos.iter xO p n) = Zpos p * 2 ^ Zpos n.
Proof.
  induction n as [|n IH] using Pos.peano_ind.
  - simpl. lia.
  - rewrite Pos.iter_succ, Pos2Z.inj_xO, IH, Pos2Z.inj_succ, Z.pow_succ_r by lia. lia.
Qed.

Lemma iter_xO_digits (p n : positive) :
  Zpos (digits2_pos (Pos.iter xO p n)) = Zpos (digits2_pos p) + Zpos n.
Proof.
  induction n as [|n IH] using Pos.peano_ind.
  - simpl. lia.
  - rewrite Pos.iter_succ. simpl digits2_pos. rewrite Pos2Z.inj_succ, IH. lia.
Qed.

(** A 53-digit mantissa in the exponent range is rounded to itself. *)
Lemma binary_round_aux_canonical (sx : bool) (m : positive) (e : Z) :
  Zpos (digits2_pos m) = 53 -> -1074 <= e <= 971 ->
  binary_round_aux prec emax sx (Zpos m) e loc_Exact = S754_finite sx m e.
Proof.
  intros Hd He.
  assert (fexp prec emax (53 + e) - e = 0) as Hf.
  { unfold fexp, emin, prec, emax. lia. }
  unfold binary_round_aux, shr_fexp. cbn [Zdigits2]. rewrite Hd, Hf. cbn [shr].
  cbn [shr_record_of_loc shr_m loc_of_shr_record shr_r shr_s round_nearest_even].
  cbn [Zdigits2]. rewrite Hd, Hf. cbn [shr shr_record_of_loc shr_m].
  assert ((e <=? emax - prec) = true) as -> by (apply Z.leb_le; unfold emax, prec; lia).
  reflexivity.
Qed.

(** An integer below [2^53] is a Number, and [BigInt] gives it back. *)
Lemma BigInt_binary_round (sx : bool) (p : positive) :
  Zpos p < 2 ^ 53 ->
  BigInt (binary_round prec emax sx p 0) = Some (cond_Zopp sx (Zpos p)).
Proof.
  intros Hp. pose proof (digits2_pos_bound p Hp) as Hd.
  unfold binary_round, shl_align.
  assert (fexp prec emax (Zpos (digits2_pos p) + 0) = Zpos (digits2_pos p) - 53) as ->.
  { unfold fexp, emin, prec, emax. lia. }
  rewrite Z.sub_0_r.
  destruct (Zpos (digits2_pos p) - 53) as [|d|d] eqn:Hdiff; [|lia|].
  - rewrite binary_round_aux_canonical by lia.
    unfold BigInt. simpl. by rewrite Z.mul_1_r.
  - rewrite binary_round_aux_canonical; cycle 1.
    { rewrite iter_xO_digits. lia. }
    { lia. }
    unfold BigInt.
    change (0 <=? Z.neg d) with false. cbv iota.
    rewrite iter_xO_value. change (- Z.neg d) with (Zpos d).
    rewrite Z_mod_mult. simpl (0 =? 0). cbv iota.
    rewrite Z_div_mult by lia. done.
Qed.

(** [BigInt(Math.floor(x))]: the floor of the value of a finite Number,
    an error on [NaN] and the infinities. *)
Lemma BigInt_Math_floor (x : number) :
  match x with
  | S754_finite s m e =>
      Zpos m < 2 ^ 53 ->
      BigInt (Math_floor x) = Some (Z.shiftl (cond_Zopp s (Zpos m)) e)
  | S754_zero _ => BigInt (Math_floor x) = Some 0
  | _ => BigInt (Math_floor x) = None
  end.
Proof.
  destruct x as [s|s| |s m e]; try reflexivity.
  intros Hm. unfold Math_floor.
  destruct (0 <=? e) eqn:He.
  - apply Z.leb_le in He. unfold BigInt. rewrite (proj2 (Z.leb_le 0 e) He).
    rewrite Z.shiftl_mul_pow2 by done. f_equal.
    destruct s; cbn [cond_Zopp]; [rewrite <- Z.mul_opp_l|]; reflexivity.
  - apply Z.leb_gt in He.
    rewrite <- Z.shiftr_opp_r.
    set (q := Z.shiftr (cond_Zopp s (Zpos m)) (- e)).
    assert (- 2 ^ 53 < q < 2 ^ 53) as Hq.
    { unfold q. rewrite Z.shiftr_div_pow2 by lia.
      assert (0 < 2 ^ (- e)) by (apply Z.pow_pos_nonneg; lia).
      destruct s; simpl cond_Zopp.
      - split.
        + apply Z.lt_le_trans with (Z.neg m); [lia|].
          apply Z.div_le_lower_bound; nia.
        + apply Z.le_lt_trans with 0; [|lia].
          apply Z.lt_succ_r. apply Z.div_lt_upper_bound; lia.
      - split.
        + apply Z.lt_le_trans with 0; [lia|]. apply Z.div_pos; lia.
        + apply Z.div_lt_upper_bound; nia. }
    unfold binary_normalize.
    destruct q as [|p|p] eqn:Eq.
    + reflexivity.
    + rewrite BigInt_binary_round by lia. reflexivity.
    + rewrite BigInt_binary_round by lia. reflexivity.
Qed.

(** X19.  send-funds converts an amount to the floor of the binary64
    product [parseFloat(amountInEth) * 1e18]: for a finite product of
    sign [s], mantissa [m] (below [2^53], as every binary64 mantissa is)
    and exponent [e], the amount is the decimal form of the floor of
    [(-1)^s * m * 2^e]; the conversion fails exactly when the product is
    [NaN] or infinite. *)
Theorem amountInWei_is_the_floor_of_the_product (amountInEth : string) :
  match mul (parseFloat amountInEth) n1e18 with
  | S754_finite s m e =>
      Zpos m < 2 ^ 53 ->
      amountInWei amountInEth
      = Some (bigint_toString (Z.shiftl (cond_Zopp s (Zpos m)) e))
  | S754_zero _ => amountInWei amountInEth = Some "0"
  | _ => amountInWei amountInEth = None
  end.
Proof.
  unfold amountInWei, floored_wei.
  pose proof (BigInt_Math_floor (mul (parseFloat amountInEth) n1e18)) as H.
  destruct (mul (parseFloat amountInEth) n1e18) as [s|s| |s m e].
  - by rewrite H.
  - by rewrite H.
  - by rewrite H.
  - intros Hm. by rewrite (H Hm).
Qed.

Lemma amountInWei_is_the_floor_of_the_product_witness :
  amountInWei "1.5" = Some "1500000000000000000".
Proof.
  pose proof (amountInWei_is_the_floor_of_the_product "1.5") as H.
  vm_compute in H. vm_compute. exact (H eq_refl).
Defined.

(** X20.  Whole amounts up to 2362 ETH are converted exactly: the
    decimal form of [n] becomes the decimal form of [n * 10^18]. *)
Theorem whole_amounts_convert_exactly (n : nat) :
  (n <= 2362)%nat ->
  amountInWei (bigint_toString (Z.of_nat n))
  = Some (bigint_toString (Z.of_nat n * 10 ^ 18)).
Proof.
  intros Hn.
  assert (forallb
            (fun n =>
               match amountInWei (bigint_toString (Z.of_nat n)) with
               | Some a => String.eqb a (bigint_toString (Z.of_nat n * 10 ^ 18))
               | None => false
               end) (seq 0 2363) = true) as H by (vm_compute; reflexivity).
  rewrite forallb_forall in H. specialize (H n).
  destruct (amountInWei (bigint_toString (Z.of_nat n))) as [a|].
  - f_equal. apply String.eqb_eq, H, in_seq. lia.
  - discriminate H. apply in_seq. lia.
Qed.

Lemma whole_amounts_convert_exactly_witness :
  amountInWei "2362" = Some "2362000000000000000000".
Proof.
  apply (whole_amounts_convert_exactly 2362). lia.
Defined.

(** The bound is the best one: 2363 ETH is not converted exactly. *)
Lemma whole_amounts_bound : amountInWei "2363" = Some "2363000000000000262144".
Proof. vm_compute. reflexivity. Qed.

Lemma negative_amounts_convert (n : nat) :
  (1 <= n <= 2362)%nat ->
  amountInWei ("-" +:+ bigint_toString (Z.of_nat n))
  = Some (bigint_toString (- (Z.of_nat n * 10 ^ 18))).
Proof.
  intros Hn.
  assert (forallb
            (fun n =>
               match amountInWei ("-" +:+ bigint_toString (Z.of_nat n)) with
               | Some a => String.eqb a (bigint_toString (- (Z.of_nat n * 10 ^ 18)))
               | None => false
               end) (seq 1 2362) = true) as H by (vm_compute; reflexivity).
  rewrite forallb_forall in H. specialize (H n).
  destruct (amountInWei ("-" +:+ bigint_toString (Z.of_nat n))) as [a|].
  - f_equal. apply String.eqb_eq, H, in_seq. lia.
  - discriminate H. apply in_seq. lia.
Qed.

(** X21.  send-funds does not reject a negative amount: for a whole
    amount [-n] it submits a transfer of [-n * 10^18]. *)
Theorem sendEthTool_submits_negative_amounts (svc : Services)
    (recipientAddress chatId : string) (w : world svc) (n : nat)
    (account : Account svc) (hash : string) (e1 e2 : Ext svc) :
  (1 <= n <= 2362)%nat ->
  let amount := bigint_toString (- (Z.of_nat n * 10 ^ 18)) in
  let transfer :=
    {| contractAddress := ETH_TOKEN_ADDRESS; entrypoint := "transfer";
       calldata := [recipientAddress; amount; "0"] |} in
  wallet_getAccount svc chatId (storage svc w) (ext svc w) = (Returned (Some account), e1) ->
  account_execute svc account transfer e1 = (Returned hash, e2) ->
  trace svc
    (sendEthTool svc recipientAddress ("-" +:+ bigint_toString (Z.of_nat n)) chatId w).2
  = trace svc w ++ [EvGetAccount svc chatId; EvExecute svc account transfer].
Proof.
  intros Hn amount transfer Ha Hx.
  destruct (sendEthTool_transfers svc recipientAddress
              ("-" +:+ bigint_toString (Z.of_nat n)) chatId w account amount hash e1 e2
              Ha (negative_amounts_convert n Hn) Hx) as (text & ->).
  reflexivity.
Qed.

Lemma sendEthTool_submits_negative_amounts_witness :
  trace Demo.services (sendEthTool Demo.services "0xbob" "-1" "42" Demo.funded).2
  = [] ++ [EvGetAccount Demo.services "42";
           EvExecute Demo.services "0xacc"
             {| contractAddress := ETH_TOKEN_ADDRESS; entrypoint := "transfer";
                calldata := ["0xbob"; "-1000000000000000000"; "0"] |}].
Proof.
  apply (sendEthTool_submits_negative_amounts Demo.services "0xbob" "42" Demo.funded 1
           "0xacc" "0xabc" 0%nat 0%nat); [lia | reflexivity | reflexivity].
Defined.

(** ** Start-up *)

(** X22.  The process goes on past the token check exactly when
    [BOT_TOKEN] is set and not empty, and otherwise exits with code 1
    after its diagnostic; the second check never throws. *)
Theorem startup_exits_or_runs (BOT_TOKEN : option string) :
  (truthy BOT_TOKEN = true ->
   exists botToken, BOT_TOKEN = Some botToken /\ Startup.startup BOT_TOKEN = Startup.Running botToken)
  /\ (truthy BOT_TOKEN = false ->
      Startup.startup BOT_TOKEN = Startup.Exited 1 "No private key defined for the TG bot")
  /\ (forall e, Startup.startup BOT_TOKEN <> Startup.Crashed e).
Proof.
  destruct BOT_TOKEN as [[|c token]|]; simpl; repeat split; try done.
  intros _. by eexists.
Qed.

Lemma startup_exits_or_runs_witness :
  Startup.startup (Some "123:abc") = Startup.Running "123:abc"
  /\ Startup.startup (Some "") = Startup.Exited 1 "No private key defined for the TG bot"
  /\ Startup.startup None = Startup.Exited 1 "No private key defined for the TG bot".
Proof.
  destruct (startup_exits_or_runs (Some "123:abc")) as (H1 & _ & _).
  destruct (H1 eq_refl) as (t & Ht & Hr). injection Ht as <-.
  destruct (startup_exits_or_runs (Some "")) as (_ & H2 & _).
  destruct (startup_exits_or_runs None) as (_ & H3 & _).
  exact (conj Hr (conj (H2 eq_refl) (H3 eq_refl))).
Defined.

Lemma generate_keeps_deployed_account_witness :
  storage Demo.services
    (generateStarknetAccountTool Demo.per_session Demo.services (Some "") "42"
       Demo.funded).2
    !! "42:accountAddress"
  = Some "0xacc".
Proof.
  destruct (generate_keeps_deployed_account Demo.per_session Demo.services (Some "") "42"
              Demo.funded)
    as (_ & _ & H).
  exact H.
Defined.

Lemma sendEthTool_at_most_one_transfer_witness :
  trace Demo.services (sendEthTool Demo.services "0xbob" "Infinity" "42" Demo.funded).2
  = [] ++ [EvGetAccount Demo.services "42"].
Proof.
  destruct (sendEthTool_at_most_one_transfer Demo.services "0xbob" "Infinity" "42"
              Demo.funded) as (_ & H).
  exact (H eq_refl).
Defined.
